(** * FillGlobalStorageJob (Calamares partition module)

    A shallow embedding of
    [src/modules/partition/jobs/FillGlobalStorageJob.cpp]: the job that
    describes every partition of the chosen devices as a variant map and
    stores the list, together with the boot loader target, in the global
    storage of the installer.

    Conventions of the embedding:
    - [QString] is [string]; its characters are read as the code points
      U+0000..U+00FF.
    - [QVariant] is the inductive [QVariant]; [QVariantMap] is a
      [gmap string QVariant], [QVariantList] a [list QVariant].
    - [QHash<QString, QString>] is a [gmap string string].
    - Debug logging ([cDebug], [Logger::CDebug]) has no effect on any value
      the job returns or stores and is left out.
    - What the job asks of KPMcore, Qt and the operating system is gathered
      in the class [Platform]. *)

From Stdlib Require Import ZArith String Ascii List Bool.
From Stdlib Require Strings.Byte.
From stdpp Require Import base gmap strings list fin_maps.

Local Open Scope string_scope.

(** ** Qt values *)

Module Qt.

(** [QVariant], restricted to the types this job stores: an invalid
    (default-constructed) variant, a string, a bool, a map and a list. *)
#[warnings="-register-all"]
Inductive QVariant : Type :=
| VInvalid : QVariant
| VString (s : string) : QVariant
| VBool (b : bool) : QVariant
| VMap (m : gmap string QVariant) : QVariant
| VList (l : list QVariant) : QVariant.

(** [QVariant::Type] of the variants above. *)
Inductive VariantType : Type :=
| TInvalid | TString | TBool | TMap | TList.

#[global] Instance VariantType_eq_dec : EqDecision VariantType.
Proof. solve_decision. Defined.

Definition type (v : QVariant) : VariantType :=
  match v with
  | VInvalid => TInvalid
  | VString _ => TString
  | VBool _ => TBool
  | VMap _ => TMap
  | VList _ => TList
  end.

(** [QVariant::isValid]. *)
Definition isValid (v : QVariant) : bool :=
  match v with
  | VInvalid => false
  | _ => true
  end.

(** [QVariant::toString]: a string is itself, a bool is spelled out, and
    a variant that does not convert gives the empty string. *)
Definition toString (v : QVariant) : string :=
  match v with
  | VString s => s
  | VBool true => "true"
  | VBool false => "false"
  | _ => ""
  end.

(** [QVariant::toMap] and [QVariant::toList]; empty when the variant is of
    another type. *)
Definition toMap (v : QVariant) : gmap string QVariant :=
  match v with
  | VMap m => m
  | _ => ∅
  end.

Definition toList (v : QVariant) : list QVariant :=
  match v with
  | VList l => l
  | _ => []
  end.

(** [QMap::value(key)]: the stored value or a default-constructed one. *)
Definition value (m : gmap string QVariant) (key : string) : QVariant :=
  default VInvalid (m !! key).

(** [QHash<QString,QString>::value(key)]. *)
Definition hashValue (h : gmap string string) (key : string) : string :=
  default "" (h !! key).

(** [QString::isEmpty]. *)
Definition isEmpty (s : string) : bool :=
  match s with
  | EmptyString => true
  | String _ _ => false
  end.

(** [QString::startsWith]. *)
Definition startsWith (s pre : string) : bool := String.prefix pre s.

(** [QChar::isSpace] on U+0000..U+00FF: the ASCII white space
    U+0009..U+000D and U+0020, and the separators U+0085 and U+00A0. *)
Definition isSpace (c : ascii) : bool :=
  let n := nat_of_ascii c in
  (n =? 32)%nat || ((9 <=? n)%nat && (n <=? 13)%nat) || (n =? 133)%nat || (n =? 160)%nat.

(** Drop the white space at the front. *)
Fixpoint trimmedLeft (s : string) : string :=
  match s with
  | EmptyString => EmptyString
  | String c rest => if isSpace c then trimmedLeft rest else s
  end.

(** Drop the white space at the back. *)
Fixpoint trimmedRight (s : string) : string :=
  match s with
  | EmptyString => EmptyString
  | String c rest =>
      match trimmedRight rest with
      | EmptyString => if isSpace c then EmptyString else String c EmptyString
      | kept => String c kept
      end
  end.

(** [QString::trimmed]: white space removed from the start and the end. *)
Definition trimmed (s : string) : string := trimmedRight (trimmedLeft s).

(** [QString::split(sep)] for a one-character separator and the default
    [KeepEmptyParts]: always at least one part. *)
Fixpoint split (sep : ascii) (s : string) : list string :=
  match s with
  | EmptyString => [EmptyString]
  | String c rest =>
      if Ascii.eqb c sep then EmptyString :: split sep rest
      else match split sep rest with
           | [] => [String c EmptyString]
           | part :: parts => String c part :: parts
           end
  end.

(** [QList::last] of a list of strings; the callers below only use it on
    the result of [split], which is never empty. *)
Definition last (l : list string) : string := List.last l EmptyString.

(** [QStringList::join]. *)
Definition join (sep : string) (l : list string) : string := String.concat sep l.

(** How a [QProcess] ended. *)
Inductive ExitStatus : Type := NormalExit | CrashExit.

#[global] Instance ExitStatus_eq_dec : EqDecision ExitStatus.
Proof. solve_decision. Defined.

(** What is read from a [QProcess] after [waitForFinished]. *)
Record ProcessResult : Type := {
  exitStatus : ExitStatus;
  exitCode : Z;
  readAllStandardOutput : list Byte.byte
}.

End Qt.

Export Qt.

(** ** KPMcore objects *)

Module KPMcore.

(** [FileSystem::Type] apart from the two LUKS types. *)
Inductive PlainType : Type :=
| Unknown | Extended | Ext2 | Ext3 | Ext4 | LinuxSwap | Fat16 | Fat32
| Ntfs | ReiserFS | Reiser4 | Xfs | Jfs | Hfs | HfsPlus | Ufs
| Unformatted | Btrfs | Hpfs | Ocfs2 | Zfs | Exfat | Nilfs2 | Lvm2_PV
| F2fs | Udf | Iso9660 | Fat12 | LinuxRaidMember | BitLocker | Apfs | Minix.

(** [FileSystem::Type]. *)
Inductive FSType : Type :=
| Luks
| Luks2
| NotLuks (t : PlainType).

#[global] Instance PlainType_eq_dec : EqDecision PlainType.
Proof. solve_decision. Defined.

#[global] Instance FSType_eq_dec : EqDecision FSType.
Proof. solve_decision. Defined.

(** A [FileSystem] object.  KPMcore fixes the type of a file system by its
    class: an [FS::luks] object has type [Luks], an [FS::luks2] object
    (a class derived from [FS::luks]) has type [Luks2], and an object of
    any other class has neither.  So a [dynamic_cast] to [FS::luks]
    succeeds on [LuksFS], whatever its version, and fails on [PlainFS].
    [m_innerFs] is the pointer [FS::luks::innerFS] returns: [None] is the
    null pointer, no inner file system detected. *)
#[warnings="-register-all"]
Inductive FileSystem : Type :=
| PlainFS (t : PlainType)
| LuksFS (version2 : bool) (m_innerFs : option FileSystem)
         (m_MapperName m_passphrase : string).

(** [FileSystem::type]. *)
Definition fileSystemType (fs : FileSystem) : FSType :=
  match fs with
  | PlainFS t => NotLuks t
  | LuksFS false _ _ _ => Luks
  | LuksFS true _ _ _ => Luks2
  end.

(** The members of [FS::luks], as [dynamic_cast< const FS::luks* >] gives
    access to them; [None] when the cast yields the null pointer. *)
Record luks : Type := {
  innerFS : option FileSystem;
  mapperName : string;
  passphrase : string
}.

Definition dynamic_cast_luks (fs : FileSystem) : option luks :=
  match fs with
  | PlainFS _ => None
  | LuksFS _ inner mapper pass =>
      Some {| innerFS := inner; mapperName := mapper; passphrase := pass |}
  end.

(** [Partition::State]. *)
Inductive State : Type := StateNone | StateNew | StateCopy | StateRestore.

#[global] Instance State_eq_dec : EqDecision State.
Proof. solve_decision. Defined.

(** [PartitionRole::Roles], a bit mask. *)
Module PartitionRole.
Definition None : Z := 0.
Definition Primary : Z := 1.
Definition Extended : Z := 2.
Definition Logical : Z := 4.
Definition Unallocated : Z := 8.
Definition Luks : Z := 16.
Definition Lvm_Lv : Z := 32.
Definition Any : Z := 255.

(** [PartitionRole::has]: some bit of [r] is set in [roles]. *)
Definition has (roles r : Z) : bool := negb (Z.land roles r =? 0)%Z.
End PartitionRole.

(** A [Partition], with the members this job reads.  [m_mountPoint] is the
    mount point Calamares attaches to the partition and reads back through
    [PartitionInfo::mountPoint]. *)
Record Partition : Type := {
  partitionPath : string;
  fileSystem : FileSystem;
  roles : Z;
  state : State;
  m_mountPoint : string
}.

(** Modelled from the spec: [PartitionIterator] (core/PartitionIterator.h)
    is not among the sources; a storage device exposes its attached
    partitions in order, and [partitions] is the sequence the iteration
    from [PartitionIterator::begin] to [PartitionIterator::end] visits. *)
Record Device : Type := {
  deviceNode : string;
  partitions : list Partition
}.

End KPMcore.

Export KPMcore.

Module PartitionInfo.

(** Modelled from the spec: [PartitionInfo::mountPoint]
    (core/PartitionInfo.h) is not among the sources; it gives the mount
    point chosen for the partition in the installed system. *)
Definition mountPoint (partition : Partition) : string :=
  m_mountPoint partition.

End PartitionInfo.

Module KPMHelpers.

(** Modelled from the spec: [KPMHelpers::findPartitionByMountPoint]
    (core/KPMHelpers.h) is not among the sources; it resolves a mount
    point to the partition currently mapped to that mount point among the
    given devices, and to no partition (the null pointer, [None]) when
    there is no match.  The devices and their partitions are searched in
    order. *)
Definition findPartitionByMountPoint (devices : list Device) (mountPoint : string)
  : option Partition :=
  List.find (fun p => String.eqb (PartitionInfo.mountPoint p) mountPoint)
            (List.concat (List.map partitions devices)).

End KPMHelpers.

(** ** Calamares core *)

Module Calamares.

(** [Calamares::JobResult]: [ok] or an error with a message and details. *)
Inductive JobResult : Type :=
| ok : JobResult
| error (message details : string) : JobResult.

(** Modelled from the spec: [Calamares::GlobalStorage] (GlobalStorage.h) is
    not among the sources; it is the string-keyed shared store of the
    installation, and [insert] stores a value under a key, overwriting any
    previous value of that key. *)
Definition insert (key : string) (v : QVariant) (storage : gmap string QVariant)
  : gmap string QVariant :=
  <[key := v]> storage.

End Calamares.

(** ** What the job asks of its surroundings *)

(** The functions of KPMcore, Qt, the branding and the operating system
    that the job calls and whose code is outside the job.  One [Platform]
    is one stable environment: the same question gets the same answer.

    - [userVisibleFS], [untranslatedFS]: the helpers of [KPMHelpers] that
      name a file system for display and canonically.  The overload of
      [untranslatedFS] on a pointer is only called on a non-null pointer
      here, where it agrees with the one on a reference.
    - [readUUID]: [FileSystem::readUUID] on a device node.
    - [runProcess]: start a program with arguments through [QProcess],
      wait until it has finished and report how it ended.
    - [fromLocal8Bit]: [QString::fromLocal8Bit].
    - [tr]: the translation of a source text.
    - [arg]: [QString::arg] with one string argument.
    - [ShortProductName]: the branding string of that name. *)
Class Platform : Type := {
  userVisibleFS : FileSystem -> string;
  untranslatedFS : FileSystem -> string;
  readUUID : FileSystem -> string -> string;
  runProcess : string -> list string -> ProcessResult;
  fromLocal8Bit : list Byte.byte -> string;
  tr : string -> string;
  arg : string -> string -> string;
  ShortProductName : string
}.

(** ** The job *)

(** The members of [FillGlobalStorageJob], set by its constructor. *)
Record FillGlobalStorageJob : Type := {
  m_devices : list Device;
  m_bootLoaderPath : string
}.

Section Job.

Context `{platform : Platform}.

(** [findPartitionUuids]: the UUID read for each partition path; a later
    partition with the same path replaces the entry of an earlier one. *)
Definition findPartitionUuids (devices : list Device) : gmap string string :=
  foldl (fun hash device =>
           foldl (fun hash p =>
                    let path := partitionPath p in
                    let uuid := readUUID (fileSystem p) (partitionPath p) in
                    <[path := uuid]> hash)
                 hash (partitions device))
        ∅ devices.

(** [getLuksUuid]: ask [cryptsetup luksUUID <path>]. *)
Definition getLuksUuid (path : string) : string :=
  let process := runProcess "cryptsetup" ["luksUUID"; path] in
  if negb (bool_decide (exitStatus process = NormalExit))
     || negb (exitCode process =? 0)%Z
  then ""
  else
    let uuid := trimmed (fromLocal8Bit (readAllStandardOutput process)) in
    uuid.

(** [mapForPartition]: the record of one partition. *)
Definition mapForPartition (partition : Partition) (uuid : string) : QVariant :=
  let map : gmap string QVariant := ∅ in
  let map := <["device" := VString (partitionPath partition)]> map in
  let map := <["mountPoint" := VString (PartitionInfo.mountPoint partition)]> map in
  let map := <["fsName" := VString (userVisibleFS (fileSystem partition))]> map in
  let map := <["fs" := VString (untranslatedFS (fileSystem partition))]> map in
  let map :=
    match fileSystemType (fileSystem partition), dynamic_cast_luks (fileSystem partition) with
    | Luks, Some luksFs =>
        match innerFS luksFs with
        | Some inner => <["fs" := VString (untranslatedFS inner)]> map
        | None => map
        end
    | _, _ => map
    end in
  let map := <["uuid" := VString uuid]> map in
  let map := <["new" := VBool (bool_decide (state partition = StateNew))]> map in
  let map :=
    if PartitionRole.has (roles partition) PartitionRole.Luks
    then
      match dynamic_cast_luks (fileSystem partition) with
      | Some luksFs =>
          let map := <["luksMapperName" := VString (last (split "/"%char (mapperName luksFs)))]> map in
          let map := <["luksUuid" := VString (getLuksUuid (partitionPath partition))]> map in
          let map := <["luksPassphrase" := VString (passphrase luksFs)]> map in
          map
      | None => map
      end
    else map in
  VMap map.

(** [FillGlobalStorageJob::createPartitionList]. *)
Definition createPartitionList (job : FillGlobalStorageJob) : QVariant :=
  let hash := findPartitionUuids (m_devices job) in
  VList (List.concat
           (List.map (fun device =>
                        List.map (fun it => mapForPartition it (hashValue hash (partitionPath it)))
                                 (partitions device))
                     (m_devices job))).

(** [FillGlobalStorageJob::createBootLoaderMap]. *)
Definition createBootLoaderMap (job : FillGlobalStorageJob) : QVariant :=
  let map : gmap string QVariant := ∅ in
  let path := m_bootLoaderPath job in
  if negb (startsWith path "/dev/")
  then
    match KPMHelpers.findPartitionByMountPoint (m_devices job) path with
    | None => VInvalid
    | Some partition =>
        let path := partitionPath partition in
        VMap (<["installPath" := VString path]> map)
    end
  else VMap (<["installPath" := VString path]> map).

(** The body of the loop of [prettyDescription]: the line appended for one
    item of the partition list, [None] where the loop appends nothing. *)
Definition descriptionLine (partitionItem : QVariant) : option string :=
  if bool_decide (type partitionItem = TMap)
  then
    let partitionMap := toMap partitionItem in
    let path := toString (value partitionMap "device") in
    let mountPoint := toString (value partitionMap "mountPoint") in
    let fsType := toString (value partitionMap "fs") in
    if isEmpty mountPoint || isEmpty fsType
    then None
    else if isEmpty path
    then
      if String.eqb mountPoint "/"
      then Some (arg (arg (tr "Install %1 on <strong>new</strong> %2 system partition.")
                          ShortProductName)
                     fsType)
      else Some (arg (arg (tr "Set up <strong>new</strong> %2 partition with mount point <strong>%1</strong>.")
                          mountPoint)
                     fsType)
    else
      if String.eqb mountPoint "/"
      then Some (arg (arg (arg (tr "Install %2 on %3 system partition <strong>%1</strong>.")
                               path)
                          ShortProductName)
                     fsType)
      else Some (arg (arg (arg (tr "Set up %3 partition <strong>%1</strong> with mount point <strong>%2</strong>.")
                               path)
                          mountPoint)
                     fsType)
  else None.

(** The [lines] of [prettyDescription] before they are joined. *)
Definition descriptionLines (job : FillGlobalStorageJob) : list string :=
  let lines : list string := [] in
  let partitionList := toList (createPartitionList job) in
  let lines := (lines ++ omap descriptionLine partitionList)%list in
  let bootloaderMap := createBootLoaderMap job in
  if negb (isEmpty (m_bootLoaderPath job))
  then (lines ++ [arg (tr "Install boot loader on <strong>%1</strong>.") (m_bootLoaderPath job)])%list
  else lines.

(** [FillGlobalStorageJob::prettyDescription]. *)
Definition prettyDescription (job : FillGlobalStorageJob) : string :=
  join "<br/>" (descriptionLines job).

(** [FillGlobalStorageJob::exec], on the global storage of the job queue:
    the result of the job and the storage it leaves. *)
Definition exec (job : FillGlobalStorageJob) (storage : gmap string QVariant)
  : Calamares.JobResult * gmap string QVariant :=
  let storage := Calamares.insert "partitions" (createPartitionList job) storage in
  if negb (isEmpty (m_bootLoaderPath job))
  then
    let var := createBootLoaderMap job in
    let storage := Calamares.insert "bootLoader" var storage in
    (Calamares.ok, storage)
  else
    let storage := Calamares.insert "bootLoader" VInvalid storage in
    (Calamares.ok, storage).

End Job.

(** ** A concrete platform and concrete jobs

    Used to run the definitions above on explicit inputs. *)

Module Sample.

(** The names KPMcore gives to the file system types, untranslated. *)
Definition nameForType (t : FSType) : string :=
  match t with
  | Luks => "luks"
  | Luks2 => "luks2"
  | NotLuks Ext2 => "ext2"
  | NotLuks Ext3 => "ext3"
  | NotLuks Ext4 => "ext4"
  | NotLuks LinuxSwap => "linuxswap"
  | NotLuks Fat16 => "fat16"
  | NotLuks Fat32 => "fat32"
  | NotLuks Btrfs => "btrfs"
  | NotLuks Xfs => "xfs"
  | NotLuks _ => "unknown"
  end.

(** The digit of the lowest place marker [%1] .. [%9] in a text. *)
Fixpoint lowestMarker (s : string) : option nat :=
  match s with
  | String "%" ((String d _) as rest) =>
      let n := (nat_of_ascii d - 48)%nat in
      if ((1 <=? n)%nat && (n <=? 9)%nat)%bool
      then match lowestMarker rest with
           | Some m => Some (Nat.min n m)
           | None => Some n
           end
      else lowestMarker rest
  | String _ rest => lowestMarker rest
  | EmptyString => None
  end.

(** Replace every marker [%n] by [a]. *)
Fixpoint replaceMarker (n : nat) (a : string) (s : string) : string :=
  match s with
  | String "%" ((String d rest') as rest) =>
      if ((nat_of_ascii d - 48)%nat =? n)%nat
      then a ++ replaceMarker n a rest'
      else String "%" (replaceMarker n a rest)
  | String c rest => String c (replaceMarker n a rest)
  | EmptyString => EmptyString
  end.

(** [QString::arg] for texts whose markers are [%1] .. [%9]: the marker
    with the lowest number is replaced. *)
Definition plainArg (s a : string) : string :=
  match lowestMarker s with
  | Some n => replaceMarker n a s
  | None => s
  end.

(** [cryptsetup luksUUID] knows one container, [/dev/sda2], fails with
    exit code 1 on [/dev/sdb1], crashes on [/dev/sdc1], and prints nothing
    for any other device. *)
Definition cryptsetup (program : string) (arguments : list string) : ProcessResult :=
  match arguments with
  | [_; "/dev/sda2"] =>
      {| exitStatus := NormalExit; exitCode := 0;
         readAllStandardOutput := list_byte_of_string "  6c3e1d0a-77b2-4a55-9a94-d06a1f3b2c41
" |}
  | [_; "/dev/sdb1"] =>
      {| exitStatus := NormalExit; exitCode := 1;
         readAllStandardOutput := list_byte_of_string "Device /dev/sdb1 is not a valid LUKS device." |}
  | [_; "/dev/sdc1"] =>
      {| exitStatus := CrashExit; exitCode := 0;
         readAllStandardOutput := list_byte_of_string "partial" |}
  | _ =>
      {| exitStatus := NormalExit; exitCode := 0; readAllStandardOutput := [] |}
  end.

Definition platform : Platform := {|
  userVisibleFS := fun fs => nameForType (fileSystemType fs);
  untranslatedFS := fun fs => nameForType (fileSystemType fs);
  readUUID := fun _ path => if String.eqb path "/dev/sda1" then "0a1b-2c3d" else "";
  runProcess := cryptsetup;
  fromLocal8Bit := string_of_list_byte;
  tr := fun sourceText => sourceText;
  arg := plainArg;
  ShortProductName := "Calamares"
|}.

(** An EFI system partition, an encrypted root whose inner file system is
    ext4, and a new, not yet created home partition. *)
Definition esp : Partition := {|
  partitionPath := "/dev/sda1";
  fileSystem := PlainFS Fat32;
  roles := PartitionRole.Primary;
  state := StateNone;
  m_mountPoint := "/boot/efi"
|}.

Definition cryptroot : Partition := {|
  partitionPath := "/dev/sda2";
  fileSystem := LuksFS false (Some (PlainFS Ext4)) "/dev/mapper/luks-6c3e1d0a" "secret";
  roles := Z.lor PartitionRole.Primary PartitionRole.Luks;
  state := StateNew;
  m_mountPoint := "/"
|}.

Definition newhome : Partition := {|
  partitionPath := "";
  fileSystem := PlainFS Btrfs;
  roles := PartitionRole.Primary;
  state := StateNew;
  m_mountPoint := "/home"
|}.

(** A partition with the LUKS role whose file system object is not an
    [FS::luks]. *)
Definition roleonly : Partition := {|
  partitionPath := "/dev/sdb1";
  fileSystem := PlainFS Ext4;
  roles := Z.lor PartitionRole.Logical PartitionRole.Luks;
  state := StateNone;
  m_mountPoint := ""
|}.

Definition sda : Device := {|
  deviceNode := "/dev/sda";
  partitions := [esp; cryptroot; newhome]
|}.

Definition sdb : Device := {|
  deviceNode := "/dev/sdb";
  partitions := [roleonly]
|}.

(** The boot loader goes to a raw device. *)
Definition jobOnDevice : FillGlobalStorageJob := {|
  m_devices := [sda; sdb];
  m_bootLoaderPath := "/dev/sda"
|}.

(** The boot loader is given by a mount point that is in use. *)
Definition jobOnMountPoint : FillGlobalStorageJob := {|
  m_devices := [sda; sdb];
  m_bootLoaderPath := "/boot/efi"
|}.

(** The boot loader is given by a mount point no partition has. *)
Definition jobUnresolved : FillGlobalStorageJob := {|
  m_devices := [sda; sdb];
  m_bootLoaderPath := "/boot"
|}.

(** No boot loader. *)
Definition jobNoBootLoader : FillGlobalStorageJob := {|
  m_devices := [sda; sdb];
  m_bootLoaderPath := ""
|}.

(** An encrypted partition whose container is LUKS2. *)
Definition cryptdata : Partition := {|
  partitionPath := "/dev/sdb2";
  fileSystem := LuksFS true (Some (PlainFS Xfs)) "/dev/mapper/luks-data" "secret";
  roles := Z.lor PartitionRole.Primary PartitionRole.Luks;
  state := StateNone;
  m_mountPoint := "/srv"
|}.

(** A global storage that already has values under both keys of the job
    and under a key of another module. *)
Definition usedStorage : gmap string QVariant :=
  <["partitions" := VList []]>
    (<["bootLoader" := VString "stale"]>
       (<["localeConf" := VString "en_US.UTF-8"]> ∅)).

(** Two partitions that are not yet created and have no device path. *)
Definition newroot : Partition := {|
  partitionPath := "";
  fileSystem := PlainFS Ext4;
  roles := PartitionRole.Primary;
  state := StateNew;
  m_mountPoint := "/"
|}.

Definition newswap : Partition := {|
  partitionPath := "";
  fileSystem := PlainFS LinuxSwap;
  roles := PartitionRole.Primary;
  state := StateNew;
  m_mountPoint := ""
|}.

Definition sdc : Device := {|
  deviceNode := "/dev/sdc";
  partitions := [newroot; newswap]
|}.

(** A platform that reads a UUID that depends on the file system. *)
Definition platformByType : Platform := {|
  userVisibleFS := fun fs => nameForType (fileSystemType fs);
  untranslatedFS := fun fs => nameForType (fileSystemType fs);
  readUUID := fun fs path => "uuid-" ++ nameForType (fileSystemType fs);
  runProcess := cryptsetup;
  fromLocal8Bit := string_of_list_byte;
  tr := fun sourceText => sourceText;
  arg := plainArg;
  ShortProductName := "Calamares"
|}.

Definition jobNewDisk : FillGlobalStorageJob := {|
  m_devices := [sdc];
  m_bootLoaderPath := "/dev/sdc"
|}.

(** A LUKS container with an inner file system on a partition whose roles
    lack the LUKS role. *)
Definition cryptnorole : Partition := {|
  partitionPath := "/dev/sdd1";
  fileSystem := LuksFS false (Some (PlainFS Ext4)) "/dev/mapper/luks-sdd1" "secret";
  roles := PartitionRole.Primary;
  state := StateNone;
  m_mountPoint := "/data"
|}.

(** Only a partition without mount point, and no boot loader. *)
Definition jobNothingShown : FillGlobalStorageJob := {|
  m_devices := [sdb];
  m_bootLoaderPath := ""
|}.

(** The boot loader is given by the mount point of a partition that has no
    path yet. *)
Definition jobOnNewHome : FillGlobalStorageJob := {|
  m_devices := [sda; sdb];
  m_bootLoaderPath := "/home"
|}.

(** Another job on other devices. *)
Definition jobOther : FillGlobalStorageJob := {|
  m_devices := [sdb];
  m_bootLoaderPath := "/dev/sdb"
|}.

End Sample.

(** ** Predicates of the statements *)

(** Every character of the string is white space. *)
Fixpoint allSpace (s : string) : bool :=
  match s with
  | EmptyString => true
  | String c rest => isSpace c && allSpace rest
  end.

(** The string starts with white space. *)
Definition firstIsSpace (s : string) : bool :=
  match s with
  | EmptyString => false
  | String c _ => isSpace c
  end.

(** The string ends with white space. *)
Fixpoint lastIsSpace (s : string) : bool :=
  match s with
  | EmptyString => false
  | String c EmptyString => isSpace c
  | String _ rest => lastIsSpace rest
  end.

(** [QString::contains]: [sub] occurs somewhere in [s]. *)
Fixpoint contains (s sub : string) : bool :=
  String.prefix sub s
  || match s with
     | EmptyString => false
     | String _ rest => contains rest sub
     end.

(** The source texts of the description lines. *)
Definition textNewSystem : string :=
  "Install %1 on <strong>new</strong> %2 system partition.".
Definition textNewMount : string :=
  "Set up <strong>new</strong> %2 partition with mount point <strong>%1</strong>.".
Definition textSystem : string :=
  "Install %2 on %3 system partition <strong>%1</strong>.".
Definition textMount : string :=
  "Set up %3 partition <strong>%1</strong> with mount point <strong>%2</strong>.".
Definition textBootLoader : string :=
  "Install boot loader on <strong>%1</strong>.".

(** The keys of a partition record. *)
Definition partitionKeys : gset string :=
  {[ "device"; "mountPoint"; "fsName"; "fs"; "uuid"; "new" ]}.
Definition luksKeys : gset string :=
  {[ "luksMapperName"; "luksUuid"; "luksPassphrase" ]}.

(** All partitions of the devices, in the order the job visits them. *)
Definition allPartitions (devices : list Device) : list Partition :=
  List.concat (List.map partitions devices).

(** ** Further functions of the job and predicates on its values *)

Section JobNames.

Context `{platform : Platform}.

(** [FillGlobalStorageJob::prettyName]. *)
Definition prettyName (job : FillGlobalStorageJob) : string :=
  tr "Set partition information".

(** [FillGlobalStorageJob::prettyStatusMessage]. *)
Definition prettyStatusMessage (job : FillGlobalStorageJob) : string :=
  tr "Setting up mount points.".

(** The UUID that [findPartitionUuids] reads for one partition. *)
Definition uuidRead (p : Partition) : string :=
  readUUID (fileSystem p) (partitionPath p).

(** The canonical name a record holds under [fs]. *)
Definition storedFs (partition : Partition) : string :=
  match fileSystemType (fileSystem partition),
        dynamic_cast_luks (fileSystem partition) ≫= innerFS with
  | Luks, Some inner => untranslatedFS inner
  | _, _ => untranslatedFS (fileSystem partition)
  end.

(** The partition is shown in the description: it has a mount point and
    a canonical file system name. *)
Definition isShown (partition : Partition) : bool :=
  negb (isEmpty (PartitionInfo.mountPoint partition))
  && negb (isEmpty (storedFs partition)).

(** The line of the description for a partition, from its members. *)
Definition lineFor (partition : Partition) : option string :=
  let path := partitionPath partition in
  let mountPoint := PartitionInfo.mountPoint partition in
  let fsType := storedFs partition in
  if isShown partition
  then Some
         match isEmpty path, String.eqb mountPoint "/" with
         | true, true => arg (arg (tr textNewSystem) ShortProductName) fsType
         | true, false => arg (arg (tr textNewMount) mountPoint) fsType
         | false, true => arg (arg (arg (tr textSystem) path) ShortProductName) fsType
         | false, false => arg (arg (arg (tr textMount) path) mountPoint) fsType
         end
  else None.

End JobNames.

(** The last partition of the devices that has the given path. *)
Definition lastWithPath (devices : list Device) (path : string) : option Partition :=
  List.find (fun p => String.eqb (partitionPath p) path)
            (List.rev (allPartitions devices)).

(** The first partition of the devices that has the given mount point. *)
Definition firstWithMountPoint (devices : list Device) (mountPoint : string)
  : option Partition :=
  List.find (fun p => String.eqb (PartitionInfo.mountPoint p) mountPoint)
            (allPartitions devices).

(** The character occurs in the string. *)
Fixpoint hasChar (c : ascii) (s : string) : bool :=
  match s with
  | EmptyString => false
  | String d rest => Ascii.eqb d c || hasChar c rest
  end.

(** ** Qt strings *)

Section QtStrings.

Lemma append_String (c : ascii) (a b : string) :
  String c a ++ b = String c (a ++ b).
Proof. reflexivity. Qed.

Lemma append_Empty (b : string) : EmptyString ++ b = b.
Proof. reflexivity. Qed.

Lemma trimmedLeft_spec (s : string) :
  exists pre, s = pre ++ trimmedLeft s
              /\ allSpace pre = true
              /\ firstIsSpace (trimmedLeft s) = false.
Proof.
  induction s as [|c rest IH]; simpl.
  - exists EmptyString. auto.
  - destruct (isSpace c) eqn:Hc.
    + destruct IH as (pre & Heq & Hpre & Hfirst).
      exists (String c pre). rewrite append_String, <- Heq.
      cbn. rewrite Hc, Hpre. auto.
    + exists EmptyString. cbn. rewrite Hc. auto.
Qed.

Lemma trimmedRight_spec (s : string) :
  exists post, s = trimmedRight s ++ post
               /\ allSpace post = true
               /\ lastIsSpace (trimmedRight s) = false.
Proof.
  induction s as [|c rest IH]; simpl.
  - exists EmptyString. auto.
  - destruct IH as (post & Heq & Hpost & Hlast).
    destruct (trimmedRight rest) as [|k kept] eqn:Hk.
    + rewrite append_Empty in Heq. subst post.
      destruct (isSpace c) eqn:Hc.
      * exists (String c rest). cbn. rewrite Hc, Hpost. auto.
      * exists rest. cbn. rewrite Hc. auto.
    + exists post. rewrite append_String, <- Heq. auto.
Qed.

Lemma trimmedRight_first (s : string) :
  firstIsSpace s = false -> firstIsSpace (trimmedRight s) = false.
Proof.
  destruct s as [|c rest]; simpl; [auto|].
  intros Hc. destruct (trimmedRight rest); simpl; [rewrite Hc|]; auto.
Qed.

(** [trimmed] cuts a run of white space off each end and nothing else, and
    what is left neither starts nor ends with white space. *)
Lemma trimmed_spec (s : string) :
  exists pre post,
    s = pre ++ trimmed s ++ post
    /\ allSpace pre = true /\ allSpace post = true
    /\ firstIsSpace (trimmed s) = false
    /\ lastIsSpace (trimmed s) = false.
Proof.
  unfold trimmed.
  destruct (trimmedLeft_spec s) as (pre & Hs & Hpre & Hfirst).
  destruct (trimmedRight_spec (trimmedLeft s)) as (post & Ht & Hpost & Hlast).
  exists pre, post. rewrite <- Ht.
  repeat split; auto using trimmedRight_first.
Qed.

(** [split] never gives the empty list, so [last] is applied to a list
    that has a last element. *)
Lemma split_nonempty (sep : ascii) (s : string) : split sep s <> [].
Proof.
  destruct s as [|c rest]; simpl; [discriminate|].
  destruct (Ascii.eqb c sep); [discriminate|].
  destruct (split sep rest); discriminate.
Qed.

Lemma append_Empty_r (a : string) : a ++ EmptyString = a.
Proof. induction a as [|c a IH]; [reflexivity|]. by rewrite append_String, IH. Qed.

Lemma append_append (a b c : string) : (a ++ b) ++ c = a ++ (b ++ c).
Proof. induction a as [|d a IH]; [reflexivity|]. by rewrite !append_String, IH. Qed.

Lemma prefix_append (sub post : string) : String.prefix sub (sub ++ post) = true.
Proof.
  induction sub as [|c sub IH].
  - rewrite append_Empty. by destruct post.
  - rewrite append_String. cbn [String.prefix].
    by destruct (ascii_dec c c).
Qed.

(** A string contains each of its infixes. *)
Lemma contains_infix (before sub after : string) :
  contains (before ++ sub ++ after) sub = true.
Proof.
  induction before as [|c before IH].
  - rewrite append_Empty. destruct (sub ++ after) eqn:Hs; cbn [contains];
      rewrite <- Hs, prefix_append; reflexivity.
  - rewrite append_String. cbn [contains]. rewrite IH. apply orb_true_r.
Qed.

(** Each string of a joined list is an infix of the result. *)
Lemma join_elem (sep text : string) (l : list string) :
  text ∈ l -> exists before after, join sep l = before ++ text ++ after.
Proof.
  unfold join. induction l as [|x xs IH]; intros Hin; [by apply elem_of_nil in Hin|].
  apply elem_of_cons in Hin as [->|Hin].
  - destruct xs as [|y ys].
    + exists "", "". cbn [String.concat]. by rewrite append_Empty, append_Empty_r.
    + exists "", (sep ++ String.concat sep (y :: ys)). reflexivity.
  - destruct (IH Hin) as (before & after & Hjoin).
    destruct xs as [|y ys]; [by apply elem_of_nil in Hin|].
    exists (x ++ sep ++ before), after.
    change (String.concat sep (x :: y :: ys))
      with (x ++ sep ++ String.concat sep (y :: ys)).
    by rewrite Hjoin, !append_append.
Qed.

(** Joining a list with one more string at the end. *)
Lemma join_snoc (sep text : string) (l : list string) :
  join sep (l ++ [text]) =
  match l with
  | [] => ""
  | _ :: _ => join sep l ++ sep
  end ++ text.
Proof.
  unfold join. induction l as [|x xs IH]; [reflexivity|].
  destruct xs as [|y ys].
  - cbn [app String.concat]. by rewrite append_append.
  - change (String.concat sep ((x :: y :: ys) ++ [text]))
      with (x ++ sep ++ String.concat sep ((y :: ys) ++ [text])).
    change (String.concat sep (x :: y :: ys))
      with (x ++ sep ++ String.concat sep (y :: ys)).
    rewrite IH. by rewrite !append_append.
Qed.

End QtStrings.

(** ** Partition records *)

Section Records.

Context `{platform : Platform}.

(** The cast to a reference in [mapForPartition] is only evaluated on a
    file system of type [Luks], where it cannot fail. *)
Lemma cast_of_Luks (fs : FileSystem) :
  fileSystemType fs = Luks -> is_Some (dynamic_cast_luks fs).
Proof. destruct fs as [t|[] inner mapper pass]; simpl; [discriminate..|eauto]. Qed.

Lemma mapForPartition_type (partition : Partition) (uuid : string) :
  type (mapForPartition partition uuid) = TMap.
Proof. reflexivity. Qed.

(** The entries every record has. *)
Lemma mapForPartition_common (partition : Partition) (uuid : string) :
  let record := toMap (mapForPartition partition uuid) in
  record !! "device" = Some (VString (partitionPath partition))
  /\ record !! "mountPoint" = Some (VString (PartitionInfo.mountPoint partition))
  /\ record !! "fsName" = Some (VString (userVisibleFS (fileSystem partition)))
  /\ record !! "uuid" = Some (VString uuid)
  /\ record !! "new" = Some (VBool (bool_decide (state partition = StateNew))).
Proof.
  unfold mapForPartition. cbn [toMap].
  destruct (PartitionRole.has _ _),
    (fileSystem partition) as [t|[] [inner|] mapper pass];
    cbn [fileSystemType dynamic_cast_luks innerFS];
    repeat split; by simplify_map_eq.
Qed.

(** The canonical name: the one of the inner file system exactly when the
    type is [Luks] and an inner file system was detected. *)
Lemma mapForPartition_fs (partition : Partition) (uuid : string) :
  toMap (mapForPartition partition uuid) !! "fs" =
  Some (VString
          (match fileSystemType (fileSystem partition),
                 dynamic_cast_luks (fileSystem partition) ≫= innerFS with
           | Luks, Some inner => untranslatedFS inner
           | _, _ => untranslatedFS (fileSystem partition)
           end)).
Proof.
  unfold mapForPartition. cbn [toMap].
  destruct (PartitionRole.has _ _),
    (fileSystem partition) as [t|[] [inner|] mapper pass];
    cbn [fileSystemType dynamic_cast_luks innerFS mbind option_bind];
    by simplify_map_eq.
Qed.

Lemma luksUuid_in_luksKeys : "luksUuid" ∈ luksKeys.
Proof. apply (bool_decide_unpack _). vm_compute. exact I. Qed.

Lemma luksKeys_disjoint : luksKeys ## partitionKeys.
Proof. apply (bool_decide_unpack _). vm_compute. exact I. Qed.

(** The domain of a record. *)
Lemma mapForPartition_dom (partition : Partition) (uuid : string) :
  dom (toMap (mapForPartition partition uuid)) =
  if PartitionRole.has (roles partition) PartitionRole.Luks
     && bool_decide (is_Some (dynamic_cast_luks (fileSystem partition)))
  then partitionKeys ∪ luksKeys
  else partitionKeys.
Proof.
  unfold mapForPartition, partitionKeys, luksKeys. cbn [toMap].
  destruct (PartitionRole.has _ _),
    (fileSystem partition) as [t|[] [inner|] mapper pass];
    cbn [fileSystemType dynamic_cast_luks innerFS andb];
    try (rewrite bool_decide_eq_true_2 by eauto);
    try (rewrite bool_decide_eq_false_2 by (intros [? ?]; discriminate));
    rewrite !dom_insert_L, dom_empty_L; set_solver.
Qed.

(** C10: a partition record has the keys [device], [mountPoint], [fsName],
    [fs], [uuid] and [new]; it has the three keys [luksMapperName],
    [luksUuid] and [luksPassphrase] as well exactly when the partition has
    the LUKS role and its file system object is an [FS::luks], and it has
    no other key.  A partition with the LUKS role whose file system object
    is not an [FS::luks] gets none of the three. *)
Theorem record_keys (partition : Partition) (uuid : string) :
  let record := toMap (mapForPartition partition uuid) in
  let hasRole := PartitionRole.has (roles partition) PartitionRole.Luks in
  let cast := dynamic_cast_luks (fileSystem partition) in
  type (mapForPartition partition uuid) = TMap
  /\ partitionKeys ⊆ dom record
  /\ dom record ⊆ partitionKeys ∪ luksKeys
  /\ ((hasRole = true /\ is_Some cast) <-> luksKeys ⊆ dom record)
  /\ ((hasRole = true /\ is_Some cast) <-> exists k, k ∈ luksKeys /\ k ∈ dom record)
  /\ ((hasRole = true /\ is_Some cast) -> dom record = partitionKeys ∪ luksKeys)
  /\ (~ (hasRole = true /\ is_Some cast) -> dom record = partitionKeys)
  /\ (hasRole = true -> cast = None -> dom record = partitionKeys).
Proof.
  intros record hasRole cast. subst record.
  split; [reflexivity|].
  rewrite mapForPartition_dom. fold hasRole cast.
  pose proof luksUuid_in_luksKeys as Hin.
  pose proof luksKeys_disjoint as Hout.
  destruct (decide (hasRole = true /\ is_Some cast)) as [[Hrole Hcast]|Hno].
  - rewrite Hrole, bool_decide_eq_true_2 by done. cbn [andb].
    split; [apply union_subseteq_l|]. split; [done|].
    split; [split; [intros _; apply union_subseteq_r | done]|].
    split; [split; [intros _ | done]|].
    { exists "luksUuid". split; [done | by apply elem_of_union_r]. }
    split; [done|]. split; [tauto|].
    intros _ Hnone. rewrite Hnone in Hcast. by destruct Hcast.
  - assert (Hoff : hasRole && bool_decide (is_Some cast) = false).
    { destruct hasRole; [|done]. cbn [andb].
      apply bool_decide_eq_false_2. tauto. }
    rewrite Hoff.
    split; [done|]. split; [apply union_subseteq_l|].
    split; [split; [tauto | intros Hsub]|].
    { exfalso. apply (Hout "luksUuid"); [done | by apply Hsub]. }
    split; [split; [tauto | intros (k & Hk & Hk')]|].
    { exfalso. by apply (Hout k). }
    split; [tauto|]. done.
Qed.

(** C1, as the code has it: for a partition whose file system has type
    [Luks] and a detected inner file system, the record's canonical name
    (key [fs]) is the canonical name of the inner file system, while its
    display name (key [fsName]) is the display name of the partition's own
    file system, the container. *)
Theorem luks_record_fs_inner_fsName_outer
    (partition : Partition) (uuid : string) (luksFs : luks) (inner : FileSystem) :
  fileSystemType (fileSystem partition) = Luks ->
  dynamic_cast_luks (fileSystem partition) = Some luksFs ->
  innerFS luksFs = Some inner ->
  let record := toMap (mapForPartition partition uuid) in
  record !! "fs" = Some (VString (untranslatedFS inner))
  /\ record !! "fsName" = Some (VString (userVisibleFS (fileSystem partition))).
Proof.
  intros Htype Hcast Hinner record. subst record. split.
  - rewrite mapForPartition_fs, Htype, Hcast. cbn [mbind option_bind].
    by rewrite Hinner.
  - apply mapForPartition_common.
Qed.

End Records.

(** ** The LUKS UUID query *)

Section LuksUuid.

Context `{platform : Platform}.

Lemma getLuksUuid_failed (path : string) :
  let process := runProcess "cryptsetup" ["luksUUID"; path] in
  exitStatus process <> NormalExit \/ exitCode process <> 0%Z ->
  getLuksUuid path = "".
Proof.
  intros process Hfail. unfold getLuksUuid. fold process.
  destruct Hfail as [Hstatus|Hcode].
  - by rewrite bool_decide_eq_false_2.
  - apply Z.eqb_neq in Hcode. rewrite Hcode.
    by rewrite orb_true_r.
Qed.

Lemma getLuksUuid_finished (path : string) :
  let process := runProcess "cryptsetup" ["luksUUID"; path] in
  exitStatus process = NormalExit -> exitCode process = 0%Z ->
  getLuksUuid path = trimmed (fromLocal8Bit (readAllStandardOutput process)).
Proof.
  intros process Hstatus Hcode. unfold getLuksUuid. fold process.
  by rewrite bool_decide_eq_true_2, Hcode.
Qed.

(** C5: [getLuksUuid] gives the empty string when the subprocess ends
    abnormally or with a non-zero exit code; otherwise it gives the
    standard output of the subprocess, decoded from the local encoding,
    with the white space at both ends removed and nothing else. *)
Theorem getLuksUuid_result (path : string) :
  let process := runProcess "cryptsetup" ["luksUUID"; path] in
  let output := fromLocal8Bit (readAllStandardOutput process) in
  (exitStatus process <> NormalExit \/ exitCode process <> 0%Z ->
   getLuksUuid path = "")
  /\ (exitStatus process = NormalExit -> exitCode process = 0%Z ->
      getLuksUuid path = trimmed output
      /\ exists pre post,
           output = pre ++ getLuksUuid path ++ post
           /\ allSpace pre = true /\ allSpace post = true
           /\ firstIsSpace (getLuksUuid path) = false
           /\ lastIsSpace (getLuksUuid path) = false).
Proof.
  intros process output. split.
  - apply getLuksUuid_failed.
  - intros Hstatus Hcode.
    rewrite (getLuksUuid_finished path Hstatus Hcode). fold process output.
    split; [reflexivity | apply trimmed_spec].
Qed.

End LuksUuid.

(** ** The boot loader record *)

Section BootLoader.

(** A mount point that no partition has resolves to no partition. *)
Lemma findPartitionByMountPoint_none (devices : list Device) (mountPoint : string) :
  Forall (fun p => PartitionInfo.mountPoint p <> mountPoint) (allPartitions devices) ->
  KPMHelpers.findPartitionByMountPoint devices mountPoint = None.
Proof.
  unfold KPMHelpers.findPartitionByMountPoint, allPartitions.
  induction 1 as [|p ps Hp _ IH]; cbn [List.find]; [reflexivity|].
  apply String.eqb_neq in Hp. by rewrite Hp.
Qed.

(** A resolved mount point is the mount point of the partition found. *)
Lemma findPartitionByMountPoint_some
    (devices : list Device) (mountPoint : string) (partition : Partition) :
  KPMHelpers.findPartitionByMountPoint devices mountPoint = Some partition ->
  In partition (allPartitions devices)
  /\ PartitionInfo.mountPoint partition = mountPoint.
Proof.
  unfold KPMHelpers.findPartitionByMountPoint. intros Hfind.
  apply List.find_some in Hfind as [Hin Heq].
  split; [exact Hin | by apply String.eqb_eq].
Qed.

(** The boot loader record is absent or holds just an install path. *)
Lemma createBootLoaderMap_shape (job : FillGlobalStorageJob) :
  createBootLoaderMap job = VInvalid
  \/ exists path, createBootLoaderMap job = VMap {[ "installPath" := VString path ]}.
Proof.
  unfold createBootLoaderMap.
  destruct (startsWith _ _); cbn [negb].
  - right. eexists. by rewrite insert_empty.
  - destruct (KPMHelpers.findPartitionByMountPoint _ _) as [partition|].
    + right. eexists. by rewrite insert_empty.
    + by left.
Qed.

Lemma createBootLoaderMap_unresolved (job : FillGlobalStorageJob) :
  startsWith (m_bootLoaderPath job) "/dev/" = false ->
  KPMHelpers.findPartitionByMountPoint (m_devices job) (m_bootLoaderPath job) = None ->
  createBootLoaderMap job = VInvalid.
Proof.
  intros Hdev Hfind. unfold createBootLoaderMap. by rewrite Hdev, Hfind.
Qed.

Lemma createBootLoaderMap_device (job : FillGlobalStorageJob) :
  startsWith (m_bootLoaderPath job) "/dev/" = true ->
  createBootLoaderMap job = VMap {[ "installPath" := VString (m_bootLoaderPath job) ]}.
Proof.
  intros Hdev. unfold createBootLoaderMap. rewrite Hdev. cbn [negb].
  by rewrite insert_empty.
Qed.

Lemma createBootLoaderMap_resolved (job : FillGlobalStorageJob) (partition : Partition) :
  startsWith (m_bootLoaderPath job) "/dev/" = false ->
  KPMHelpers.findPartitionByMountPoint (m_devices job) (m_bootLoaderPath job)
  = Some partition ->
  createBootLoaderMap job = VMap {[ "installPath" := VString (partitionPath partition) ]}.
Proof.
  intros Hdev Hfind. unfold createBootLoaderMap. rewrite Hdev, Hfind. cbn [negb].
  by rewrite insert_empty.
Qed.

(** C4: a boot loader path that starts with [/dev/] goes into the record
    as it is, under [installPath]; the devices are not consulted. *)
Theorem device_path_verbatim (job : FillGlobalStorageJob) :
  startsWith (m_bootLoaderPath job) "/dev/" = true ->
  createBootLoaderMap job = VMap {[ "installPath" := VString (m_bootLoaderPath job) ]}
  /\ value (toMap (createBootLoaderMap job)) "installPath" = VString (m_bootLoaderPath job)
  /\ forall devices,
       createBootLoaderMap {| m_devices := devices; m_bootLoaderPath := m_bootLoaderPath job |}
       = createBootLoaderMap job.
Proof.
  intros Hdev. unfold createBootLoaderMap. cbn [m_bootLoaderPath m_devices].
  rewrite Hdev. cbn [negb toMap]. rewrite insert_empty.
  split; [reflexivity|]. split; [|reflexivity].
  unfold value. by rewrite lookup_singleton_eq.
Qed.

End BootLoader.

(** ** Running the job *)

Section Exec.

Context `{platform : Platform}.

(** The partition list has one record per partition, in the order of the
    devices and of the partitions of each device. *)
Lemma createPartitionList_records (job : FillGlobalStorageJob) :
  toList (createPartitionList job) =
  List.map (fun p => mapForPartition p
                       (hashValue (findPartitionUuids (m_devices job)) (partitionPath p)))
           (allPartitions (m_devices job)).
Proof.
  unfold createPartitionList, allPartitions. cbn [toList].
  by rewrite List.concat_map, List.map_map.
Qed.

(** What [exec] returns, in one equation. *)
Lemma exec_unfold (job : FillGlobalStorageJob) (storage : gmap string QVariant) :
  exec job storage =
  (Calamares.ok,
   <["bootLoader" := if isEmpty (m_bootLoaderPath job) then VInvalid
                     else createBootLoaderMap job]>
     (<["partitions" := createPartitionList job]> storage)).
Proof.
  unfold exec, Calamares.insert. by destruct (isEmpty _).
Qed.

(** C2: [exec] returns the success result, whatever the devices, the boot
    loader path, the platform and the storage are. *)
Theorem exec_always_ok (job : FillGlobalStorageJob) (storage : gmap string QVariant) :
  (exec job storage).1 = Calamares.ok
  /\ forall message details, (exec job storage).1 <> Calamares.error message details.
Proof.
  rewrite exec_unfold. by split.
Qed.

(** C3: for a boot loader path that is not empty, does not start with
    [/dev/] and is the mount point of no partition of the devices,
    [createBootLoaderMap] gives the invalid variant, and [exec] stores
    that variant under [bootLoader] and succeeds. *)
Theorem unresolved_mount_point_absent
    (job : FillGlobalStorageJob) (storage : gmap string QVariant) :
  isEmpty (m_bootLoaderPath job) = false ->
  startsWith (m_bootLoaderPath job) "/dev/" = false ->
  Forall (fun p => PartitionInfo.mountPoint p <> m_bootLoaderPath job)
         (allPartitions (m_devices job)) ->
  createBootLoaderMap job = VInvalid
  /\ isValid (createBootLoaderMap job) = false
  /\ (exec job storage).1 = Calamares.ok
  /\ (exec job storage).2 !! "bootLoader" = Some VInvalid.
Proof.
  intros Hempty Hdev Hnone.
  assert (Habsent : createBootLoaderMap job = VInvalid).
  { apply createBootLoaderMap_unresolved; [exact Hdev|].
    by apply findPartitionByMountPoint_none. }
  rewrite exec_unfold, Hempty, Habsent. cbn [fst snd isValid].
  repeat split. by rewrite lookup_insert_eq.
Qed.

(** C6: [exec] writes the keys [partitions] and [bootLoader] of the global
    storage, replacing what was there, and no other key.  [partitions]
    gets the list with one record per partition in order; [bootLoader]
    gets a record with [installPath] or the invalid variant, the latter
    when the boot loader path is empty or cannot be resolved. *)
Theorem exec_writes_partitions_and_bootLoader
    (job : FillGlobalStorageJob) (storage : gmap string QVariant) :
  let storage' := (exec job storage).2 in
  storage' !! "partitions" = Some (createPartitionList job)
  /\ toList (createPartitionList job) =
     List.map (fun p => mapForPartition p
                          (hashValue (findPartitionUuids (m_devices job)) (partitionPath p)))
              (allPartitions (m_devices job))
  /\ (exists var,
        storage' !! "bootLoader" = Some var
        /\ (var = VInvalid \/ exists path, var = VMap {[ "installPath" := VString path ]})
        /\ (isEmpty (m_bootLoaderPath job) = true -> var = VInvalid)
        /\ (isEmpty (m_bootLoaderPath job) = false -> var = createBootLoaderMap job)
        /\ (startsWith (m_bootLoaderPath job) "/dev/" = false ->
            KPMHelpers.findPartitionByMountPoint (m_devices job) (m_bootLoaderPath job) = None ->
            var = VInvalid)
        /\ (isEmpty (m_bootLoaderPath job) = false ->
            startsWith (m_bootLoaderPath job) "/dev/" = true ->
            var = VMap {[ "installPath" := VString (m_bootLoaderPath job) ]})
        /\ (forall partition,
              isEmpty (m_bootLoaderPath job) = false ->
              startsWith (m_bootLoaderPath job) "/dev/" = false ->
              KPMHelpers.findPartitionByMountPoint (m_devices job) (m_bootLoaderPath job)
              = Some partition ->
              var = VMap {[ "installPath" := VString (partitionPath partition) ]})
        /\ (var = VInvalid ->
            isEmpty (m_bootLoaderPath job) = true
            \/ (startsWith (m_bootLoaderPath job) "/dev/" = false
                /\ KPMHelpers.findPartitionByMountPoint (m_devices job)
                     (m_bootLoaderPath job) = None)))
  /\ (forall key, key <> "partitions" -> key <> "bootLoader" ->
      storage' !! key = storage !! key)
  /\ dom storage' = {[ "partitions"; "bootLoader" ]} ∪ dom storage.
Proof.
  intros storage'. subst storage'. rewrite exec_unfold. cbn [snd].
  split; [by rewrite lookup_insert_ne, lookup_insert_eq|].
  split; [apply createPartitionList_records|].
  split.
  - eexists. split; [by rewrite lookup_insert_eq|].
    destruct (isEmpty (m_bootLoaderPath job)).
    + repeat split; auto; discriminate.
    + split; [apply createBootLoaderMap_shape|].
      split; [discriminate|]. split; [done|].
      split; [intros Hdev Hfind; by apply createBootLoaderMap_unresolved|].
      split; [intros _ Hdev; by apply createBootLoaderMap_device|].
      split; [intros partition _ Hdev Hfind; by apply createBootLoaderMap_resolved|].
      intros Habsent. right.
      destruct (startsWith (m_bootLoaderPath job) "/dev/") eqn:Hdev.
      * rewrite (createBootLoaderMap_device job Hdev) in Habsent. discriminate Habsent.
      * split; [reflexivity|].
        destruct (KPMHelpers.findPartitionByMountPoint _ _) as [partition|] eqn:Hfind;
          [|reflexivity].
        rewrite (createBootLoaderMap_resolved job partition Hdev Hfind) in Habsent.
        discriminate Habsent.
  - split.
    + intros key Hp Hb. by rewrite !lookup_insert_ne.
    + by rewrite !dom_insert_L, (assoc_L (∪)), (comm_L (∪) {[ "bootLoader" ]}).
Qed.

(** C8: with the devices, the boot loader path and the platform fixed, a
    second run of the job builds the same partition list and the same boot
    loader record as the first, returns the same result, and leaves the
    global storage as the first run left it. *)
Theorem exec_twice_same
    (job : FillGlobalStorageJob) (storage : gmap string QVariant) :
  let first := exec job storage in
  let second := exec job first.2 in
  second.1 = first.1
  /\ second.2 = first.2
  /\ second.2 !! "partitions" = first.2 !! "partitions"
  /\ second.2 !! "bootLoader" = first.2 !! "bootLoader"
  /\ first.2 !! "partitions" = Some (createPartitionList job)
  /\ is_Some (first.2 !! "bootLoader").
Proof.
  intros first second. subst first second. rewrite !exec_unfold. cbn [fst snd].
  assert (Hsame : forall (b l : QVariant) (m : gmap string QVariant),
             <["bootLoader" := b]> (<["partitions" := l]>
               (<["bootLoader" := b]> (<["partitions" := l]> m)))
             = <["bootLoader" := b]> (<["partitions" := l]> m)).
  { intros b l m. apply map_eq. intros key.
    destruct (decide (key = "bootLoader")) as [->|Hb];
      [by rewrite !lookup_insert_eq|].
    rewrite !(lookup_insert_ne _ "bootLoader") by done.
    destruct (decide (key = "partitions")) as [->|Hp];
      [by rewrite !lookup_insert_eq|].
    by rewrite !lookup_insert_ne. }
  rewrite Hsame.
  repeat split; [by rewrite lookup_insert_ne, lookup_insert_eq|].
  rewrite lookup_insert_eq. eauto.
Qed.

End Exec.

(** ** The description shown before the job runs *)

Section Description.

Context `{platform : Platform}.

Lemma isEmpty_true (s : string) : isEmpty s = true <-> s = "".
Proof. destruct s; cbn; split; congruence. Qed.

Lemma isEmpty_false (s : string) : isEmpty s = false <-> s <> "".
Proof. destruct s; cbn; split; congruence. Qed.

(** The lines are those of the partition records, in order, followed by
    the boot loader line when a boot loader path is set. *)
Lemma descriptionLines_unfold (job : FillGlobalStorageJob) :
  descriptionLines job =
  (omap descriptionLine (toList (createPartitionList job))
   ++ if isEmpty (m_bootLoaderPath job) then []
      else [arg (tr textBootLoader) (m_bootLoaderPath job)])%list.
Proof.
  unfold descriptionLines. destruct (isEmpty _); cbn [negb app].
  - by rewrite app_nil_r.
  - reflexivity.
Qed.

Lemma descriptionLine_in_lines
    (job : FillGlobalStorageJob) (partitionItem : QVariant) (text : string) :
  partitionItem ∈ toList (createPartitionList job) ->
  descriptionLine partitionItem = Some text ->
  text ∈ descriptionLines job.
Proof.
  intros Hitem Hline. rewrite descriptionLines_unfold.
  apply elem_of_app. left. apply list_elem_of_omap. eauto.
Qed.

(** The line of a record of the partition list is part of the text that
    [prettyDescription] returns. *)
Lemma descriptionLine_in_prettyDescription
    (job : FillGlobalStorageJob) (partitionItem : QVariant) (text : string) :
  partitionItem ∈ toList (createPartitionList job) ->
  descriptionLine partitionItem = Some text ->
  exists before after, prettyDescription job = before ++ text ++ after.
Proof.
  intros Hitem Hline. unfold prettyDescription.
  apply join_elem. by apply (descriptionLine_in_lines job partitionItem).
Qed.

(** The line of a record, by cases on its fields. *)
Lemma descriptionLine_cases (partitionMap : gmap string QVariant) :
  let path := toString (value partitionMap "device") in
  let mountPoint := toString (value partitionMap "mountPoint") in
  let fsType := toString (value partitionMap "fs") in
  descriptionLine (VMap partitionMap) =
  if isEmpty mountPoint || isEmpty fsType then None
  else match isEmpty path, String.eqb mountPoint "/" with
       | true, true => Some (arg (arg (tr textNewSystem) ShortProductName) fsType)
       | true, false => Some (arg (arg (tr textNewMount) mountPoint) fsType)
       | false, true => Some (arg (arg (arg (tr textSystem) path) ShortProductName) fsType)
       | false, false => Some (arg (arg (arg (tr textMount) path) mountPoint) fsType)
       end.
Proof.
  intros path mountPoint fsType. unfold descriptionLine.
  cbn [type toMap]. rewrite bool_decide_eq_true_2 by done.
  fold path mountPoint fsType.
  by destruct (isEmpty mountPoint || isEmpty fsType), (isEmpty path),
    (String.eqb mountPoint "/").
Qed.

(** C7: a record with a non-empty file system name and the mount point
    [/] gives a line built from one of the two "system partition" texts; a
    record with another, non-empty mount point gives a line built from one
    of the two other texts, which do not have that phrase; a record with
    an empty mount point or an empty file system name gives no line; and
    the texts with "new" are used exactly when the device path of the
    record is empty.  The line of a record of the partition list is a line
    of the description. *)
Theorem description_phrasing (partitionMap : gmap string QVariant) :
  let path := toString (value partitionMap "device") in
  let mountPoint := toString (value partitionMap "mountPoint") in
  let fsType := toString (value partitionMap "fs") in
  let line := descriptionLine (VMap partitionMap) in
  (fsType <> "" -> mountPoint = "/" -> path = "" ->
   line = Some (arg (arg (tr textNewSystem) ShortProductName) fsType))
  /\ (fsType <> "" -> mountPoint = "/" -> path <> "" ->
      line = Some (arg (arg (arg (tr textSystem) path) ShortProductName) fsType))
  /\ (fsType <> "" -> mountPoint <> "" -> mountPoint <> "/" -> path = "" ->
      line = Some (arg (arg (tr textNewMount) mountPoint) fsType))
  /\ (fsType <> "" -> mountPoint <> "" -> mountPoint <> "/" -> path <> "" ->
      line = Some (arg (arg (arg (tr textMount) path) mountPoint) fsType))
  /\ (mountPoint = "" \/ fsType = "" -> line = None)
  /\ (contains textNewSystem "system partition" = true
      /\ contains textSystem "system partition" = true
      /\ contains textNewMount "system partition" = false
      /\ contains textMount "system partition" = false)
  /\ (contains textNewSystem "<strong>new</strong>" = true
      /\ contains textNewMount "<strong>new</strong>" = true
      /\ contains textSystem "<strong>new</strong>" = false
      /\ contains textMount "<strong>new</strong>" = false)
  /\ (forall job text,
        VMap partitionMap ∈ toList (createPartitionList job) ->
        line = Some text ->
        text ∈ descriptionLines job
        /\ prettyDescription job = join "<br/>" (descriptionLines job)
        /\ (exists before after, prettyDescription job = before ++ text ++ after)
        /\ contains (prettyDescription job) text = true).
Proof.
  intros path mountPoint fsType line. subst line.
  rewrite descriptionLine_cases. fold path mountPoint fsType.
  split; [|split; [|split; [|split; [|split]]]].
  - intros Hfs Hmp Hpath. apply isEmpty_false in Hfs.
    rewrite Hmp, Hpath, Hfs. reflexivity.
  - intros Hfs Hmp Hpath. apply isEmpty_false in Hfs, Hpath.
    rewrite Hmp, Hpath, Hfs. reflexivity.
  - intros Hfs Hmp Hroot Hpath.
    apply isEmpty_false in Hfs, Hmp. apply String.eqb_neq in Hroot.
    rewrite Hfs, Hmp, Hroot, Hpath. reflexivity.
  - intros Hfs Hmp Hroot Hpath.
    apply isEmpty_false in Hfs, Hmp, Hpath. apply String.eqb_neq in Hroot.
    rewrite Hfs, Hmp, Hroot, Hpath. reflexivity.
  - intros [Hmp|Hfs].
    + apply isEmpty_true in Hmp. by rewrite Hmp.
    + apply isEmpty_true in Hfs. by rewrite Hfs, orb_true_r.
  - split; [by vm_compute|]. split; [by vm_compute|].
    intros job text Hitem Hline.
    assert (Hrecord : descriptionLine (VMap partitionMap) = Some text)
      by (by rewrite descriptionLine_cases).
    clear Hline. rename Hrecord into Hline.
    split; [by apply (descriptionLine_in_lines job (VMap partitionMap))|].
    split; [reflexivity|].
    destruct (descriptionLine_in_prettyDescription job _ text Hitem Hline)
      as (before & after & Htext).
    split; [by exists before, after|].
    rewrite Htext. apply contains_infix.
Qed.

(** C9: when the boot loader path is not empty, the description ends with
    the boot loader line built from that path as configured.  The record
    [createBootLoaderMap] computes plays no part in it: the line is there
    also when the path is a mount point that resolves to no partition, the
    case in which [exec] stores the invalid variant under [bootLoader]. *)
Theorem boot_loader_line_raw_path
    (job : FillGlobalStorageJob) (storage : gmap string QVariant) :
  isEmpty (m_bootLoaderPath job) = false ->
  let line := arg (tr textBootLoader) (m_bootLoaderPath job) in
  descriptionLines job =
    (omap descriptionLine (toList (createPartitionList job)) ++ [line])%list
  /\ List.last (descriptionLines job) "" = line
  /\ prettyDescription job =
     match omap descriptionLine (toList (createPartitionList job)) with
     | [] => ""
     | _ :: _ =>
         join "<br/>" (omap descriptionLine (toList (createPartitionList job))) ++ "<br/>"
     end ++ line
  /\ contains (prettyDescription job) line = true
  /\ (startsWith (m_bootLoaderPath job) "/dev/" = false ->
      KPMHelpers.findPartitionByMountPoint (m_devices job) (m_bootLoaderPath job) = None ->
      createBootLoaderMap job = VInvalid
      /\ (exec job storage).2 !! "bootLoader" = Some VInvalid
      /\ line ∈ descriptionLines job
      /\ exists before, prettyDescription job = before ++ line).
Proof.
  intros Hempty line.
  assert (Hlines : descriptionLines job =
                   (omap descriptionLine (toList (createPartitionList job)) ++ [line])%list).
  { by rewrite descriptionLines_unfold, Hempty. }
  assert (Htext : prettyDescription job =
                  match omap descriptionLine (toList (createPartitionList job)) with
                  | [] => ""
                  | _ :: _ =>
                      join "<br/>" (omap descriptionLine (toList (createPartitionList job)))
                      ++ "<br/>"
                  end ++ line).
  { unfold prettyDescription. rewrite Hlines. apply join_snoc. }
  split; [exact Hlines|]. split; [rewrite Hlines; apply List.last_last|].
  split; [exact Htext|]. split.
  - rewrite Htext.
    match goal with
    | |- contains (?before ++ line) line = true =>
        pose proof (contains_infix before line "") as Hin
    end.
    by rewrite append_Empty_r in Hin.
  - intros Hdev Hfind.
    assert (Habsent : createBootLoaderMap job = VInvalid)
      by (by apply createBootLoaderMap_unresolved).
    split; [exact Habsent|]. split.
    + rewrite exec_unfold, Hempty, Habsent. cbn [snd]. apply lookup_insert_eq.
    + split; [|by eexists; exact Htext].
      rewrite Hlines. apply elem_of_app. right. apply list_elem_of_singleton.
      reflexivity.
Qed.

End Description.

(** ** The job on the sample platform *)

Section Runs.

Let record (partition : Partition) (uuid : string) : gmap string QVariant :=
  toMap (@mapForPartition Sample.platform partition uuid).

(** C1, as stated, fails on the encrypted root of the sample: its file
    system has type [Luks] and the inner file system ext4, the display
    name of ext4 is "ext4", and the record has the display name of the
    container, "luks", under [fsName]. *)
Lemma luks_record_fsName_not_inner :
  fileSystemType (fileSystem Sample.cryptroot) = Luks
  /\ dynamic_cast_luks (fileSystem Sample.cryptroot) ≫= innerFS = Some (PlainFS Ext4)
  /\ @userVisibleFS Sample.platform (PlainFS Ext4) = "ext4"
  /\ record Sample.cryptroot "" !! "fsName" = Some (VString "luks")
  /\ ~ (record Sample.cryptroot "" !! "fsName"
        = Some (VString (@userVisibleFS Sample.platform (PlainFS Ext4)))
        /\ record Sample.cryptroot "" !! "fs"
          = Some (VString (@untranslatedFS Sample.platform (PlainFS Ext4)))).
Proof.
  assert (Hname : record Sample.cryptroot "" !! "fsName" = Some (VString "luks"))
    by (by vm_compute).
  repeat split; try exact Hname.
  intros [Hinner _]. rewrite Hname in Hinner. discriminate Hinner.
Qed.

Lemma luks_record_fs_inner_fsName_outer_witness :
  fileSystemType (fileSystem Sample.cryptroot) = Luks
  /\ dynamic_cast_luks (fileSystem Sample.cryptroot)
     = Some {| innerFS := Some (PlainFS Ext4);
               mapperName := "/dev/mapper/luks-6c3e1d0a";
               passphrase := "secret" |}
  /\ record Sample.cryptroot "0a1b" !! "fs" = Some (VString "ext4")
  /\ record Sample.cryptroot "0a1b" !! "fsName" = Some (VString "luks").
Proof.
  split; [reflexivity|]. split; [reflexivity|].
  exact (@luks_record_fs_inner_fsName_outer Sample.platform Sample.cryptroot "0a1b"
           _ (PlainFS Ext4) eq_refl eq_refl eq_refl).
Defined.

Lemma record_keys_witness :
  dom (record Sample.cryptroot "") = partitionKeys ∪ luksKeys
  /\ dom (record Sample.roleonly "") = partitionKeys
  /\ dom (record Sample.esp "") = partitionKeys.
Proof.
  split; [|split].
  - pose proof (@record_keys Sample.platform Sample.cryptroot "")
      as (_ & _ & _ & _ & _ & Hboth & _ & _).
    apply Hboth. split; [reflexivity | by eexists].
  - pose proof (@record_keys Sample.platform Sample.roleonly "")
      as (_ & _ & _ & _ & _ & _ & _ & Hrole).
    apply Hrole; reflexivity.
  - pose proof (@record_keys Sample.platform Sample.esp "")
      as (_ & _ & _ & _ & _ & _ & Hnot & _).
    apply Hnot. intros [Hrole _]. discriminate Hrole.
Defined.

Lemma getLuksUuid_result_witness :
  @getLuksUuid Sample.platform "/dev/sda2" = "6c3e1d0a-77b2-4a55-9a94-d06a1f3b2c41"
  /\ @getLuksUuid Sample.platform "/dev/sdb1" = ""
  /\ @getLuksUuid Sample.platform "/dev/sdc1" = "".
Proof.
  split; [|split].
  - exact (proj1 (proj2 (@getLuksUuid_result Sample.platform "/dev/sda2")
                    eq_refl eq_refl)).
  - apply (@getLuksUuid_result Sample.platform "/dev/sdb1").
    right. discriminate.
  - apply (@getLuksUuid_result Sample.platform "/dev/sdc1").
    left. discriminate.
Defined.

Lemma device_path_verbatim_witness :
  startsWith "/dev/sda" "/dev/" = true
  /\ createBootLoaderMap Sample.jobOnDevice = VMap {[ "installPath" := VString "/dev/sda" ]}.
Proof.
  split; [reflexivity|].
  exact (proj1 (device_path_verbatim Sample.jobOnDevice eq_refl)).
Defined.

Lemma sample_mount_points_not_boot :
  Forall (fun p => PartitionInfo.mountPoint p <> "/boot")
         (allPartitions (m_devices Sample.jobUnresolved)).
Proof. repeat constructor; discriminate. Defined.

Lemma unresolved_mount_point_absent_witness :
  isEmpty "/boot" = false
  /\ startsWith "/boot" "/dev/" = false
  /\ createBootLoaderMap Sample.jobUnresolved = VInvalid
  /\ (@exec Sample.platform Sample.jobUnresolved ∅).1 = Calamares.ok
  /\ (@exec Sample.platform Sample.jobUnresolved ∅).2 !! "bootLoader" = Some VInvalid.
Proof.
  split; [reflexivity|]. split; [reflexivity|].
  pose proof (@unresolved_mount_point_absent Sample.platform Sample.jobUnresolved ∅
                eq_refl eq_refl sample_mount_points_not_boot) as H.
  split; [apply H|]. split; apply H.
Defined.

Lemma boot_loader_line_raw_path_witness :
  isEmpty "/boot" = false
  /\ List.last (@descriptionLines Sample.platform Sample.jobUnresolved) ""
     = "Install boot loader on <strong>/boot</strong>."
  /\ createBootLoaderMap Sample.jobUnresolved = VInvalid
  /\ (@exec Sample.platform Sample.jobUnresolved ∅).2 !! "bootLoader" = Some VInvalid
  /\ @prettyDescription Sample.platform Sample.jobUnresolved
     = "Set up fat32 partition <strong>/dev/sda1</strong> with mount point <strong>/boot/efi</strong>.<br/>Install Calamares on ext4 system partition <strong>/dev/sda2</strong>.<br/>Set up <strong>new</strong> btrfs partition with mount point <strong>/home</strong>.<br/>"
       ++ "Install boot loader on <strong>/boot</strong>."
  /\ contains (@prettyDescription Sample.platform Sample.jobUnresolved)
       "Install boot loader on <strong>/boot</strong>." = true.
Proof.
  split; [reflexivity|].
  pose proof (@boot_loader_line_raw_path Sample.platform Sample.jobUnresolved ∅ eq_refl)
    as (_ & Hlast & Htext & Hcontains & Habsent).
  split; [exact Hlast|].
  split; [apply (Habsent eq_refl eq_refl)|].
  split; [apply (Habsent eq_refl eq_refl)|].
  split; [|exact Hcontains].
  rewrite Htext. reflexivity.
Defined.

Lemma exec_writes_partitions_and_bootLoader_witness :
  (@exec Sample.platform Sample.jobOnDevice Sample.usedStorage).2 !! "bootLoader"
  = Some (VMap {[ "installPath" := VString "/dev/sda" ]})
  /\ (@exec Sample.platform Sample.jobOnMountPoint Sample.usedStorage).2 !! "bootLoader"
    = Some (VMap {[ "installPath" := VString "/dev/sda1" ]})
  /\ (@exec Sample.platform Sample.jobNoBootLoader Sample.usedStorage).2 !! "bootLoader"
    = Some VInvalid
  /\ (@exec Sample.platform Sample.jobOnDevice Sample.usedStorage).2 !! "localeConf"
    = Some (VString "en_US.UTF-8").
Proof.
  split; [|split; [|split]].
  - destruct (@exec_writes_partitions_and_bootLoader Sample.platform Sample.jobOnDevice
                Sample.usedStorage)
      as (_ & _ & (var & Hvar & _ & _ & _ & _ & Hdev & _) & _).
    rewrite Hvar. f_equal. exact (Hdev eq_refl eq_refl).
  - destruct (@exec_writes_partitions_and_bootLoader Sample.platform Sample.jobOnMountPoint
                Sample.usedStorage)
      as (_ & _ & (var & Hvar & _ & _ & _ & _ & _ & Hfound & _) & _).
    rewrite Hvar. f_equal. exact (Hfound Sample.esp eq_refl eq_refl eq_refl).
  - destruct (@exec_writes_partitions_and_bootLoader Sample.platform Sample.jobNoBootLoader
                Sample.usedStorage)
      as (_ & _ & (var & Hvar & _ & Hempty & _) & _).
    rewrite Hvar. f_equal. exact (Hempty eq_refl).
  - destruct (@exec_writes_partitions_and_bootLoader Sample.platform Sample.jobOnDevice
                Sample.usedStorage)
      as (_ & _ & _ & Hother & _).
    rewrite Hother by discriminate. reflexivity.
Defined.

Lemma description_phrasing_witness :
  @descriptionLine Sample.platform (VMap (record Sample.cryptroot ""))
  = Some "Install Calamares on ext4 system partition <strong>/dev/sda2</strong>."
  /\ @descriptionLine Sample.platform (VMap (record Sample.newhome ""))
    = Some "Set up <strong>new</strong> btrfs partition with mount point <strong>/home</strong>."
  /\ @descriptionLine Sample.platform (VMap (record Sample.roleonly "")) = None
  /\ VMap (record Sample.cryptroot "")
     ∈ toList (@createPartitionList Sample.platform Sample.jobUnresolved)
  /\ contains (@prettyDescription Sample.platform Sample.jobUnresolved)
       "Install Calamares on ext4 system partition <strong>/dev/sda2</strong>." = true.
Proof.
  assert (Hroot : @descriptionLine Sample.platform (VMap (record Sample.cryptroot ""))
                  = Some "Install Calamares on ext4 system partition <strong>/dev/sda2</strong>.").
  { apply (@description_phrasing Sample.platform (record Sample.cryptroot ""));
      [discriminate | reflexivity | discriminate]. }
  assert (Hitem : VMap (record Sample.cryptroot "")
                  ∈ toList (@createPartitionList Sample.platform Sample.jobUnresolved)).
  { apply (list_elem_of_lookup_2 _ 1%nat). reflexivity. }
  split; [exact Hroot|]. split; [|split; [|split; [exact Hitem|]]].
  - apply (@description_phrasing Sample.platform (record Sample.newhome ""));
      [discriminate | discriminate | discriminate | reflexivity].
  - apply (@description_phrasing Sample.platform (record Sample.roleonly "")).
    left. reflexivity.
  - pose proof (@description_phrasing Sample.platform (record Sample.cryptroot ""))
      as (_ & _ & _ & _ & _ & _ & _ & Hshown).
    apply (Hshown Sample.jobUnresolved _ Hitem Hroot).
Defined.

(** The whole description of the sample job whose boot loader mount point
    resolves to no partition. *)
Example prettyDescription_sample :
  @prettyDescription Sample.platform Sample.jobUnresolved
  = "Set up fat32 partition <strong>/dev/sda1</strong> with mount point <strong>/boot/efi</strong>.<br/>Install Calamares on ext4 system partition <strong>/dev/sda2</strong>.<br/>Set up <strong>new</strong> btrfs partition with mount point <strong>/home</strong>.<br/>Install boot loader on <strong>/boot</strong>.".
Proof. by vm_compute. Qed.

(** A mount point in use resolves to the path of its partition. *)
Example createBootLoaderMap_sample :
  createBootLoaderMap Sample.jobOnMountPoint
  = VMap {[ "installPath" := VString "/dev/sda1" ]}.
Proof. by vm_compute. Qed.

(** The mapper name of a record is the last segment of the mapper device. *)
Example luksMapperName_sample :
  record Sample.cryptroot "" !! "luksMapperName" = Some (VString "luks-6c3e1d0a").
Proof. by vm_compute. Qed.

(** A LUKS2 container is an [FS::luks] but not of type [Luks]: its record
    has the LUKS keys and keeps the name of the container under [fs]. *)
Example luks2_record_sample :
  record Sample.cryptdata "" !! "fs" = Some (VString "luks2")
  /\ record Sample.cryptdata "" !! "luksMapperName" = Some (VString "luks-data")
  /\ dom (record Sample.cryptdata "") = partitionKeys ∪ luksKeys.
Proof.
  split; [by vm_compute|]. split; [by vm_compute|].
  apply (bool_decide_unpack _). by vm_compute.
Qed.

(** On a storage in use, the job replaces the values of its two keys and
    keeps the value of the other key. *)
Example exec_sample :
  let storage' := (@exec Sample.platform Sample.jobOnMountPoint Sample.usedStorage).2 in
  storage' !! "bootLoader" = Some (VMap {[ "installPath" := VString "/dev/sda1" ]})
  /\ length (toList (value storage' "partitions")) = 4
  /\ storage' !! "localeConf" = Some (VString "en_US.UTF-8")
  /\ dom storage' = {[ "partitions"; "bootLoader"; "localeConf" ]}.
Proof.
  split; [by vm_compute|]. split; [by vm_compute|]. split; [by vm_compute|].
  apply (bool_decide_unpack _). by vm_compute.
Qed.

End Runs.

(** ** The UUIDs of the partitions *)

Section Uuids.

Context `{platform : Platform}.

(** The two nested loops of [findPartitionUuids] are one loop over all
    partitions. *)
Lemma findPartitionUuids_foldl (devices : list Device) :
  findPartitionUuids devices =
  foldl (fun (hash : gmap string string) p => <[partitionPath p := uuidRead p]> hash) ∅ (allPartitions devices).
Proof.
  unfold findPartitionUuids, allPartitions.
  generalize (∅ : gmap string string).
  induction devices as [|device devices IH]; intros hash; cbn [foldl List.map List.concat].
  - reflexivity.
  - by rewrite IH, foldl_app.
Qed.

Lemma foldl_insert_lookup (ps : list Partition) (path : string) :
  foldl (fun (hash : gmap string string) p => <[partitionPath p := uuidRead p]> hash) ∅ ps !! path =
  uuidRead <$> List.find (fun p => String.eqb (partitionPath p) path) (List.rev ps).
Proof.
  induction ps as [|p ps IH] using rev_ind.
  - reflexivity.
  - rewrite foldl_app, List.rev_app_distr. cbn [foldl List.rev app List.find].
    destruct (String.eqb_spec (partitionPath p) path) as [->|Hne].
    + by rewrite lookup_insert_eq.
    + by rewrite lookup_insert_ne.
Qed.

Lemma elem_of_rev (ps : list Partition) (p : Partition) :
  p ∈ List.rev ps <-> p ∈ ps.
Proof. rewrite !list_elem_of_In. symmetry. apply List.in_rev. Qed.

(** A partition of a list is found by its own path in the reversed list. *)
Lemma find_path_some (ps : list Partition) (p : Partition) :
  p ∈ ps ->
  is_Some (List.find (fun q => String.eqb (partitionPath q) (partitionPath p)) (List.rev ps)).
Proof.
  intros Hp. destruct (List.find _ _) as [q|] eqn:Hfind; [eauto|].
  exfalso. apply (proj2 (elem_of_rev ps p)), list_elem_of_In in Hp.
  apply (List.find_none _ _ Hfind) in Hp.
  by rewrite String.eqb_refl in Hp.
Qed.

(** Among partitions with distinct paths, a partition is the only one with
    its path. *)
Lemma find_own_path (ps : list Partition) (p : Partition) :
  NoDup (partitionPath <$> ps) -> p ∈ ps ->
  List.find (fun q => String.eqb (partitionPath q) (partitionPath p)) (List.rev ps) = Some p.
Proof.
  intros Hnodup Hp.
  assert (Hrev : p ∈ List.rev ps) by (by apply (proj2 (elem_of_rev ps p))).
  assert (Honly : forall q, q ∈ List.rev ps -> partitionPath q = partitionPath p -> q = p).
  { intros q Hq Hpath. apply (proj1 (elem_of_rev ps q)) in Hq.
    apply list_elem_of_lookup in Hq as [i Hi], Hp as [j Hj].
    assert (i = j) as ->.
    { apply (NoDup_lookup _ i j (partitionPath p) Hnodup);
        rewrite list_lookup_fmap; [rewrite Hi | rewrite Hj]; cbn; congruence. }
    congruence. }
  induction (List.rev ps) as [|q qs IH]; [by apply elem_of_nil in Hrev|].
  cbn [List.find].
  destruct (String.eqb_spec (partitionPath q) (partitionPath p)) as [Heq|Hne].
  - f_equal. apply Honly; [left | exact Heq].
  - apply IH.
    + apply elem_of_cons in Hrev as [->|Hin]; [done | exact Hin].
    + intros q' Hq'. apply Honly. by right.
Qed.

(** X1: the table of [findPartitionUuids] has, for a path, the UUID read
    for the last partition of the devices with that path, and no entry for
    a path that no partition has. *)
Theorem findPartitionUuids_lookup (devices : list Device) (path : string) :
  findPartitionUuids devices !! path = uuidRead <$> lastWithPath devices path.
Proof.
  rewrite findPartitionUuids_foldl. apply foldl_insert_lookup.
Qed.

(** X2: the table of [findPartitionUuids] is empty exactly when the
    devices have no partition at all; a partition whose UUID reads as the
    empty string still has an entry. *)
Theorem findPartitionUuids_empty_iff (devices : list Device) :
  (findPartitionUuids devices = ∅ <-> allPartitions devices = [])
  /\ forall p, p ∈ allPartitions devices ->
       is_Some (findPartitionUuids devices !! partitionPath p).
Proof.
  assert (Hkeys : forall p, p ∈ allPartitions devices ->
                    is_Some (findPartitionUuids devices !! partitionPath p)).
  { intros p Hp. rewrite findPartitionUuids_foldl, foldl_insert_lookup.
    apply fmap_is_Some. by apply find_path_some. }
  split; [split|exact Hkeys].
  - intros Hempty. destruct (allPartitions devices) as [|p ps] eqn:Hall; [done|].
    destruct (Hkeys p) as [uuid Huuid]; [left|].
    by rewrite Hempty, lookup_empty in Huuid.
  - intros Hall. by rewrite findPartitionUuids_foldl, Hall.
Qed.

(** X3: when the paths of the partitions are pairwise distinct, the record
    of the partition list at a position is the record of the partition at
    that position with the UUID read for that very partition. *)
Theorem createPartitionList_own_uuid
    (job : FillGlobalStorageJob) (i : nat) (p : Partition) :
  NoDup (partitionPath <$> allPartitions (m_devices job)) ->
  allPartitions (m_devices job) !! i = Some p ->
  toList (createPartitionList job) !! i = Some (mapForPartition p (uuidRead p)).
Proof.
  intros Hnodup Hi.
  rewrite createPartitionList_records.
  change (List.map ?f ?l) with (f <$> l).
  rewrite list_lookup_fmap, Hi. cbn [fmap option_fmap option_map]. f_equal. f_equal.
  unfold hashValue.
  rewrite findPartitionUuids_foldl, foldl_insert_lookup.
  rewrite (find_own_path _ p Hnodup); [reflexivity|].
  by eapply list_elem_of_lookup_2.
Qed.

(** X4: whatever the paths are, the record of a partition carries the UUID
    read for the last partition that has the same path, so partitions that
    share a path (such as partitions without a path) get equal UUIDs. *)
Theorem createPartitionList_shared_uuid
    (job : FillGlobalStorageJob) (i : nat) (p : Partition) :
  allPartitions (m_devices job) !! i = Some p ->
  exists q,
    lastWithPath (m_devices job) (partitionPath p) = Some q
    /\ partitionPath q = partitionPath p
    /\ toList (createPartitionList job) !! i = Some (mapForPartition p (uuidRead q))
    /\ forall j p', allPartitions (m_devices job) !! j = Some p' ->
         partitionPath p' = partitionPath p ->
         toList (createPartitionList job) !! j = Some (mapForPartition p' (uuidRead q)).
Proof.
  intros Hi.
  assert (Hrecord : forall j p', allPartitions (m_devices job) !! j = Some p' ->
            toList (createPartitionList job) !! j =
            Some (mapForPartition p'
                    (default "" (uuidRead <$> lastWithPath (m_devices job) (partitionPath p'))))).
  { intros j p' Hj. rewrite createPartitionList_records.
    change (List.map ?f ?l) with (f <$> l).
    rewrite list_lookup_fmap, Hj. cbn [fmap option_fmap option_map].
    unfold hashValue. by rewrite findPartitionUuids_foldl, foldl_insert_lookup. }
  destruct (find_path_some (allPartitions (m_devices job)) p) as [q Hlast];
    [by eapply list_elem_of_lookup_2|].
  fold (lastWithPath (m_devices job) (partitionPath p)) in Hlast.
  exists q. split; [exact Hlast|].
  pose proof Hlast as Hq. unfold lastWithPath in Hq.
  apply List.find_some in Hq as [_ Hq]. apply String.eqb_eq in Hq.
  split; [exact Hq|]. split.
  - by rewrite (Hrecord i p Hi), Hlast.
  - intros j p' Hj Hpath. by rewrite (Hrecord j p' Hj), Hpath, Hlast.
Qed.

End Uuids.

(** ** Segments and white space *)

Section Segments.

Lemma split_without_sep (sep : ascii) (s : string) :
  hasChar sep s = false -> split sep s = [s].
Proof.
  induction s as [|c rest IH]; cbn [hasChar split]; [reflexivity|].
  intros Hno. apply orb_false_elim in Hno as [Hc Hrest].
  by rewrite Hc, (IH Hrest).
Qed.

Lemma split_with_sep (sep : ascii) (s : string) :
  hasChar sep s = true -> exists a b l, split sep s = a :: b :: l.
Proof.
  induction s as [|c rest IH]; cbn [hasChar split]; [discriminate|].
  intros Hhas. destruct (Ascii.eqb c sep) eqn:Hc.
  - pose proof (split_nonempty sep rest) as Hne.
    destruct (split sep rest) as [|b l]; [done|]. eauto.
  - cbn [orb] in Hhas. destruct (IH Hhas) as (a & b & l & Hsplit).
    rewrite Hsplit. eauto.
Qed.

(** The last part of a string with one character more at the front. *)
Lemma last_split_String (sep c : ascii) (rest : string) :
  last (split sep (String c rest)) =
  if hasChar sep (String c rest) then last (split sep rest) else String c rest.
Proof.
  destruct (hasChar sep (String c rest)) eqn:Hhas.
  - cbn [hasChar] in Hhas. cbn [split]. destruct (Ascii.eqb c sep) eqn:Hc.
    + pose proof (split_nonempty sep rest) as Hne.
      by destruct (split sep rest).
    + cbn [orb] in Hhas. destruct (split_with_sep sep rest Hhas) as (a & b & l & Hsplit).
      by rewrite Hsplit.
  - by rewrite (split_without_sep sep _ Hhas).
Qed.

Lemma last_split_no_sep (sep : ascii) (s : string) :
  hasChar sep (last (split sep s)) = false.
Proof.
  induction s as [|c rest IH]; [reflexivity|].
  rewrite last_split_String.
  by destruct (hasChar sep (String c rest)) eqn:Hhas.
Qed.

Lemma last_split_suffix (sep : ascii) (s : string) :
  exists pre,
    s = pre ++ last (split sep s)
    /\ (pre = "" \/ exists pre', pre = pre' ++ String sep "").
Proof.
  induction s as [|c rest IH].
  - exists "". by split; [|left].
  - rewrite last_split_String.
    destruct (hasChar sep (String c rest)) eqn:Hhas.
    + destruct IH as (pre & Hrest & Hpre). exists (String c pre).
      split; [by rewrite append_String, <- Hrest|].
      right. destruct Hpre as [->|(pre' & ->)].
      * exists "". rewrite append_Empty in Hrest |- *.
        cbn [hasChar] in Hhas.
        rewrite Hrest, last_split_no_sep, orb_false_r in Hhas.
        by apply Ascii.eqb_eq in Hhas as ->.
      * exists (String c pre'). by rewrite append_String.
    + exists "". by split; [|left].
Qed.

Lemma trimmedLeft_empty (s : string) :
  trimmedLeft s = "" <-> allSpace s = true.
Proof.
  induction s as [|c rest IH]; cbn [trimmedLeft allSpace]; [done|].
  destruct (isSpace c); cbn [andb]; [exact IH | done].
Qed.

Lemma trimmedRight_empty (s : string) :
  trimmedRight s = "" <-> allSpace s = true.
Proof.
  induction s as [|c rest IH]; cbn [trimmedRight allSpace]; [done|].
  destruct (trimmedRight rest) as [|k kept].
  - destruct IH as [IH _]. rewrite (IH eq_refl), andb_true_r.
    by destruct (isSpace c).
  - split; [done|]. intros Hall. apply andb_prop in Hall as [_ Hrest].
    by apply IH in Hrest.
Qed.

Lemma allSpace_first (s : string) :
  allSpace s = true -> firstIsSpace s = false -> s = "".
Proof. destruct s as [|c rest]; cbn; [done|]. by destruct (isSpace c). Qed.

(** [trimmed] gives the empty string exactly on a string of white space. *)
Lemma trimmed_empty (s : string) : trimmed s = "" <-> allSpace s = true.
Proof.
  unfold trimmed. rewrite trimmedRight_empty.
  destruct (trimmedLeft_spec s) as (pre & Hs & Hpre & Hfirst).
  split.
  - intros Hall. by apply trimmedLeft_empty, allSpace_first.
  - intros Hall. apply trimmedLeft_empty in Hall. by rewrite Hall.
Qed.

End Segments.

(** ** More on the partition records *)

Section MoreRecords.

Context `{platform : Platform}.

(** The LUKS entries of a record that has them. *)
Lemma mapForPartition_luks (partition : Partition) (uuid : string) (luksFs : luks) :
  PartitionRole.has (roles partition) PartitionRole.Luks = true ->
  dynamic_cast_luks (fileSystem partition) = Some luksFs ->
  let record := toMap (mapForPartition partition uuid) in
  record !! "luksMapperName" = Some (VString (last (split "/" (mapperName luksFs))))
  /\ record !! "luksUuid" = Some (VString (getLuksUuid (partitionPath partition)))
  /\ record !! "luksPassphrase" = Some (VString (passphrase luksFs)).
Proof.
  intros Hrole Hcast. unfold mapForPartition. cbn [toMap].
  rewrite Hrole, Hcast.
  destruct (fileSystemType (fileSystem partition)), (innerFS luksFs);
    repeat split; by simplify_map_eq.
Qed.

Lemma mapForPartition_stored_fs (partition : Partition) (uuid : string) :
  toMap (mapForPartition partition uuid) !! "fs" = Some (VString (storedFs partition)).
Proof. apply mapForPartition_fs. Qed.

(** X5: the display name of a record (key [fsName]) is always the one of
    the partition's own file system, and so is the canonical name (key
    [fs]) unless the file system has type [Luks] and an inner file system:
    a file system of another type, LUKS2 among them, or a container
    without a detected inner file system keeps its own name. *)
Theorem record_own_names (partition : Partition) (uuid : string) :
  let record := toMap (mapForPartition partition uuid) in
  record !! "fsName" = Some (VString (userVisibleFS (fileSystem partition)))
  /\ (fileSystemType (fileSystem partition) <> Luks
      \/ dynamic_cast_luks (fileSystem partition) ≫= innerFS = None ->
      record !! "fs" = Some (VString (untranslatedFS (fileSystem partition)))).
Proof.
  intros record. subst record. split; [apply mapForPartition_common|].
  intros Hown. rewrite mapForPartition_fs.
  destruct Hown as [Htype|Hinner].
  - by destruct (fileSystemType (fileSystem partition)).
  - rewrite Hinner. by destruct (fileSystemType (fileSystem partition)).
Qed.

(** X6: the mapper name of a record is the part of the mapper device path
    after its last slash: it has no slash, the path is a prefix followed
    by it, the prefix is empty or ends with a slash, and a path without
    slash is taken whole. *)
Theorem record_mapper_name (partition : Partition) (uuid : string) (luksFs : luks) :
  PartitionRole.has (roles partition) PartitionRole.Luks = true ->
  dynamic_cast_luks (fileSystem partition) = Some luksFs ->
  exists name pre,
    toMap (mapForPartition partition uuid) !! "luksMapperName" = Some (VString name)
    /\ hasChar "/" name = false
    /\ mapperName luksFs = pre ++ name
    /\ (pre = "" \/ exists pre', pre = pre' ++ "/")
    /\ (hasChar "/" (mapperName luksFs) = false -> name = mapperName luksFs).
Proof.
  intros Hrole Hcast.
  destruct (last_split_suffix "/" (mapperName luksFs)) as (pre & Hpath & Hpre).
  exists (last (split "/" (mapperName luksFs))), pre.
  split; [by apply mapForPartition_luks|].
  split; [apply last_split_no_sep|].
  split; [exact Hpath|]. split; [exact Hpre|].
  intros Hno. by rewrite (split_without_sep _ _ Hno).
Qed.

(** X7: the two LUKS decisions of a record are independent.  A partition
    whose file system has type [Luks] with an inner file system but whose
    roles lack the LUKS role gets the inner canonical name under [fs] and
    none of the LUKS keys. *)
Theorem luks_type_without_role
    (partition : Partition) (uuid : string) (inner : FileSystem) :
  PartitionRole.has (roles partition) PartitionRole.Luks = false ->
  fileSystemType (fileSystem partition) = Luks ->
  dynamic_cast_luks (fileSystem partition) ≫= innerFS = Some inner ->
  let record := toMap (mapForPartition partition uuid) in
  record !! "fs" = Some (VString (untranslatedFS inner))
  /\ dom record = partitionKeys
  /\ record !! "luksMapperName" = None
  /\ record !! "luksUuid" = None
  /\ record !! "luksPassphrase" = None.
Proof.
  intros Hrole Htype Hinner record. subst record.
  assert (Hdom : dom (toMap (mapForPartition partition uuid)) = partitionKeys)
    by (by rewrite mapForPartition_dom, Hrole).
  split; [by rewrite mapForPartition_fs, Htype, Hinner|].
  split; [exact Hdom|].
  repeat split; apply not_elem_of_dom; rewrite Hdom;
    apply (bool_decide_unpack _); by vm_compute.
Qed.

(** X8: the UUID [getLuksUuid] gives never starts or ends with white
    space, and it is empty exactly when the subprocess ended abnormally,
    ended with a non-zero exit code, or printed nothing but white space. *)
Theorem getLuksUuid_empty_iff (path : string) :
  let process := runProcess "cryptsetup" ["luksUUID"; path] in
  let output := fromLocal8Bit (readAllStandardOutput process) in
  firstIsSpace (getLuksUuid path) = false
  /\ lastIsSpace (getLuksUuid path) = false
  /\ (getLuksUuid path = ""
      <-> exitStatus process <> NormalExit
          \/ exitCode process <> 0%Z
          \/ allSpace output = true).
Proof.
  intros process output.
  destruct (decide (exitStatus process = NormalExit)) as [Hstatus|Hstatus];
    [destruct (decide (exitCode process = 0%Z)) as [Hcode|Hcode]|].
  - rewrite (getLuksUuid_finished path Hstatus Hcode). fold process output.
    destruct (trimmed_spec output) as (pre & post & _ & _ & _ & Hfirst & Hlast).
    split; [exact Hfirst|]. split; [exact Hlast|].
    rewrite trimmed_empty. split; [auto | by intros [?|[?|?]]].
  - rewrite (getLuksUuid_failed path) by (by right). repeat split; auto.
  - rewrite (getLuksUuid_failed path) by (by left). repeat split; auto.
Qed.

End MoreRecords.

(** ** The description in terms of the partitions *)

Section MoreDescription.

Context `{platform : Platform}.

(** The line of the record of a partition. *)
Lemma descriptionLine_mapForPartition (partition : Partition) (uuid : string) :
  descriptionLine (mapForPartition partition uuid) = lineFor partition.
Proof.
  pose proof (mapForPartition_common partition uuid) as (Hdev & Hmp & _).
  pose proof (mapForPartition_stored_fs partition uuid) as Hfs.
  set (record := toMap (mapForPartition partition uuid)) in *.
  change (mapForPartition partition uuid) with (VMap record).
  clearbody record.
  rewrite descriptionLine_cases. unfold value.
  rewrite Hdev, Hmp, Hfs. cbn [default from_option id toString].
  unfold lineFor, isShown.
  by destruct (isEmpty (PartitionInfo.mountPoint partition)),
    (isEmpty (storedFs partition)), (isEmpty (partitionPath partition)),
    (String.eqb (PartitionInfo.mountPoint partition) "/").
Qed.

Lemma omap_map {A B C : Type} (f : B -> option C) (g : A -> B) (l : list A) :
  omap f (List.map g l) = omap (fun x => f (g x)) l.
Proof.
  induction l as [|x l IH]; [reflexivity|].
  cbn [List.map omap list_omap]. by rewrite <- IH.
Qed.

Lemma descriptionLines_partitions (job : FillGlobalStorageJob) :
  descriptionLines job =
  (omap lineFor (allPartitions (m_devices job))
   ++ if isEmpty (m_bootLoaderPath job) then []
      else [arg (tr textBootLoader) (m_bootLoaderPath job)])%list.
Proof.
  rewrite descriptionLines_unfold, createPartitionList_records, omap_map.
  f_equal. induction (allPartitions (m_devices job)) as [|p ps IH]; [reflexivity|].
  cbn [omap list_omap]. fold (omap lineFor ps).
  by rewrite descriptionLine_mapForPartition, <- IH.
Qed.

Lemma omap_lineFor_length (ps : list Partition) :
  length (omap lineFor ps) = length (List.filter isShown ps).
Proof.
  induction ps as [|p ps IH]; [reflexivity|].
  cbn [omap list_omap List.filter]. fold (omap lineFor ps).
  unfold lineFor at 1. destruct (isShown p); cbn [length]; by rewrite IH.
Qed.

(** X9: the line of the description for a partition is fixed by the
    partition's path, mount point and stored canonical file system name.
    The UUID, the state and the roles of the partition play no part, so a
    partition in state new that has a path is described as an existing
    partition. *)
Theorem description_line_of_partition (partition : Partition) (uuid : string) :
  descriptionLine (mapForPartition partition uuid) = lineFor partition
  /\ (forall uuid' partition',
        partitionPath partition' = partitionPath partition ->
        PartitionInfo.mountPoint partition' = PartitionInfo.mountPoint partition ->
        fileSystem partition' = fileSystem partition ->
        descriptionLine (mapForPartition partition' uuid')
        = descriptionLine (mapForPartition partition uuid))
  /\ (state partition = StateNew -> isShown partition = true ->
      partitionPath partition <> "" ->
      toMap (mapForPartition partition uuid) !! "new" = Some (VBool true)
      /\ exists text,
           (text = textSystem \/ text = textMount)
           /\ contains text "<strong>new</strong>" = false
           /\ descriptionLine (mapForPartition partition uuid)
              = Some (arg (arg (arg (tr text) (partitionPath partition))
                               (if String.eqb (PartitionInfo.mountPoint partition) "/"
                                then ShortProductName
                                else PartitionInfo.mountPoint partition))
                          (storedFs partition))).
Proof.
  split; [apply descriptionLine_mapForPartition|]. split.
  - intros uuid' partition' Hpath Hmp Hfs.
    rewrite !descriptionLine_mapForPartition.
    unfold lineFor, isShown, storedFs. by rewrite Hpath, Hmp, Hfs.
  - intros Hstate Hshown Hpath. split.
    + pose proof (mapForPartition_common partition uuid) as (_ & _ & _ & _ & Hnew).
      by rewrite Hnew, bool_decide_eq_true_2.
    + rewrite descriptionLine_mapForPartition. unfold lineFor. rewrite Hshown.
      apply isEmpty_false in Hpath. rewrite Hpath.
      destruct (String.eqb (PartitionInfo.mountPoint partition) "/").
      * exists textSystem. split; [by left|]. split; [by vm_compute | reflexivity].
      * exists textMount. split; [by right|]. split; [by vm_compute | reflexivity].
Qed.

(** X10: the description has one line for each partition that has a mount
    point and a canonical file system name, in the order of the
    partitions, and one more line when a boot loader path is set; so it
    has at most one line more than there are partitions, and none when no
    partition is shown and no boot loader path is set. *)
Theorem description_line_count (job : FillGlobalStorageJob) :
  let shown := List.filter isShown (allPartitions (m_devices job)) in
  descriptionLines job =
    (omap lineFor shown
     ++ if isEmpty (m_bootLoaderPath job) then []
        else [arg (tr textBootLoader) (m_bootLoaderPath job)])%list
  /\ length (descriptionLines job)
     = (length shown + if isEmpty (m_bootLoaderPath job) then 0 else 1)%nat
  /\ (length (descriptionLines job) <= length (allPartitions (m_devices job)) + 1)%nat
  /\ (shown = [] -> isEmpty (m_bootLoaderPath job) = true -> prettyDescription job = "")
  /\ prettyDescription job =
     join "<br/>"
          (omap lineFor shown
           ++ if isEmpty (m_bootLoaderPath job) then []
              else [arg (tr textBootLoader) (m_bootLoaderPath job)])%list
  /\ (forall p, p ∈ shown ->
      exists text before after,
        lineFor p = Some text /\ prettyDescription job = before ++ text ++ after).
Proof.
  intros shown.
  assert (Hsame : omap lineFor (allPartitions (m_devices job)) = omap lineFor shown).
  { subst shown. induction (allPartitions (m_devices job)) as [|p ps IH]; [reflexivity|].
    cbn [List.filter omap list_omap]. fold (omap lineFor ps).
    destruct (isShown p) eqn:Hshown.
    - cbn [omap list_omap]. fold (omap lineFor (List.filter isShown ps)).
      by rewrite IH.
    - unfold lineFor at 1. by rewrite Hshown. }
  assert (Hlength : length (descriptionLines job)
            = (length shown + if isEmpty (m_bootLoaderPath job) then 0 else 1)%nat).
  { rewrite descriptionLines_partitions, length_app, omap_lineFor_length.
    by destruct (isEmpty _). }
  split; [by rewrite descriptionLines_partitions, Hsame|].
  split; [exact Hlength|]. split.
  { rewrite Hlength. subst shown.
    pose proof (List.filter_length_le isShown (allPartitions (m_devices job))).
    destruct (isEmpty _); lia. }
  split.
  { intros Hnone Hempty. unfold prettyDescription.
    rewrite descriptionLines_partitions, Hsame, Hnone, Hempty. reflexivity. }
  split.
  { unfold prettyDescription. by rewrite descriptionLines_partitions, Hsame. }
  intros p Hp.
  assert (Hshown : isShown p = true).
  { subst shown. apply list_elem_of_In, List.filter_In in Hp. tauto. }
  destruct (lineFor p) as [text|] eqn:Hline;
    [|unfold lineFor in Hline; rewrite Hshown in Hline; discriminate Hline].
  destruct (join_elem "<br/>" text (descriptionLines job)) as (before & after & Hjoin).
  { rewrite descriptionLines_partitions, Hsame. apply elem_of_app. left.
    apply list_elem_of_omap. eauto. }
  exists text, before, after. split; [reflexivity | exact Hjoin].
Qed.

End MoreDescription.

(** ** More on running the job *)

Section MoreExec.

Context `{platform : Platform}.

(** X11: the job leaves nothing of an earlier run in its two keys: running
    a job after another job gives the storage that running it alone gives,
    and what it writes does not depend on the storage it starts from. *)
Theorem exec_last_writer_wins
    (job1 job2 : FillGlobalStorageJob) (storage : gmap string QVariant) :
  (exec job2 (exec job1 storage).2).2 = (exec job2 storage).2
  /\ forall storage' : gmap string QVariant,
       (exec job2 storage').2 !! "partitions" = (exec job2 storage).2 !! "partitions"
       /\ (exec job2 storage').2 !! "bootLoader" = (exec job2 storage).2 !! "bootLoader".
Proof.
  rewrite !exec_unfold. cbn [snd]. split.
  - apply map_eq. intros key.
    destruct (decide (key = "bootLoader")) as [->|Hb];
      [by rewrite !lookup_insert_eq|].
    rewrite !(lookup_insert_ne _ "bootLoader") by done.
    destruct (decide (key = "partitions")) as [->|Hp];
      [by rewrite !lookup_insert_eq|].
    by rewrite !lookup_insert_ne.
  - intros storage'. rewrite !exec_unfold. cbn [snd].
    split; [by rewrite !(lookup_insert_ne _ "bootLoader"), !lookup_insert_eq|].
    by rewrite !lookup_insert_eq.
Qed.

(** X12: the value [exec] stores under [bootLoader] is valid exactly when
    the boot loader path is not empty and either starts with [/dev/] or
    resolves to a partition; a valid value is a map with the one key
    [installPath], which holds the path itself in the first case and the
    path of the resolved partition in the second. *)
Theorem stored_bootLoader_valid_iff
    (job : FillGlobalStorageJob) (storage : gmap string QVariant) :
  let path := m_bootLoaderPath job in
  let found := KPMHelpers.findPartitionByMountPoint (m_devices job) path in
  let var := value (exec job storage).2 "bootLoader" in
  (isValid var = true
   <-> isEmpty path = false /\ (startsWith path "/dev/" = true \/ is_Some found))
  /\ (isValid var = true ->
      exists installPath,
        var = VMap {[ "installPath" := VString installPath ]}
        /\ dom (toMap var) = {[ "installPath" ]}
        /\ (startsWith path "/dev/" = true -> installPath = path)
        /\ (startsWith path "/dev/" = false ->
            exists partition, found = Some partition
                              /\ installPath = partitionPath partition)).
Proof.
  intros path found var. subst var. rewrite exec_unfold. cbn [snd].
  unfold value. rewrite lookup_insert_eq. cbn [default from_option id].
  fold path. destruct (isEmpty path) eqn:Hempty.
  { cbn [isValid]. split; [split; [discriminate | intros [? _]; discriminate]|].
    discriminate. }
  unfold createBootLoaderMap. fold path found.
  destruct (startsWith path "/dev/") eqn:Hdev; cbn [negb].
  - rewrite insert_empty. cbn [isValid toMap]. split; [split; auto|].
    intros _. exists path. rewrite dom_singleton_L.
    repeat split; auto. discriminate.
  - destruct found as [partition|]; cbn [isValid toMap].
    + rewrite insert_empty. split; [split; eauto|].
      intros _. exists (partitionPath partition). rewrite dom_singleton_L.
      repeat split; eauto. discriminate.
    + split; [split; [discriminate|]|discriminate].
      intros [_ [Hno|Hno]]; [discriminate | by destruct Hno].
Qed.

(** X13: the partition list has one map per partition, and reading the
    [device] and [mountPoint] entries of the maps in order gives back the
    paths and the mount points of the partitions in the order the devices
    list them. *)
Theorem partition_list_order (job : FillGlobalStorageJob) :
  let items := toList (createPartitionList job) in
  let all := allPartitions (m_devices job) in
  length items = length all
  /\ Forall (fun item => type item = TMap) items
  /\ (fun item => toString (value (toMap item) "device")) <$> items
     = partitionPath <$> all
  /\ (fun item => toString (value (toMap item) "mountPoint")) <$> items
     = PartitionInfo.mountPoint <$> all.
Proof.
  intros items all. subst items all.
  rewrite createPartitionList_records.
  induction (allPartitions (m_devices job)) as [|p ps (Hlen & Htype & Hdev & Hmp)].
  - repeat split. constructor.
  - cbn [List.map length fmap list_fmap].
    pose proof (mapForPartition_common p
                  (hashValue (findPartitionUuids (m_devices job)) (partitionPath p)))
      as (Hp_dev & Hp_mp & _).
    split; [by rewrite Hlen|]. split; [by constructor|].
    unfold value at 1 3. rewrite Hp_dev, Hp_mp. cbn [default from_option id toString].
    split; f_equal; assumption.
Qed.

End MoreExec.

(** ** The further properties on the sample platform *)

Section MoreRuns.

Let record (partition : Partition) (uuid : string) : gmap string QVariant :=
  toMap (@mapForPartition Sample.platform partition uuid).

Lemma findPartitionUuids_lookup_witness :
  @findPartitionUuids Sample.platformByType [Sample.sdc] !! "" = Some "uuid-linuxswap"
  /\ @findPartitionUuids Sample.platformByType [Sample.sdc] !! "/dev/sdc1" = None.
Proof.
  split; by rewrite (@findPartitionUuids_lookup Sample.platformByType).
Defined.

Lemma findPartitionUuids_empty_iff_witness :
  @findPartitionUuids Sample.platform [] = ∅
  /\ @uuidRead Sample.platform Sample.roleonly = ""
  /\ is_Some (@findPartitionUuids Sample.platform [Sample.sdb] !! "/dev/sdb1").
Proof.
  split; [|split; [reflexivity|]].
  - by apply (@findPartitionUuids_empty_iff Sample.platform []).
  - apply (proj2 (@findPartitionUuids_empty_iff Sample.platform [Sample.sdb])
             Sample.roleonly).
    by left.
Defined.

Lemma sample_paths_distinct :
  NoDup (partitionPath <$> allPartitions (m_devices Sample.jobOnDevice)).
Proof. apply (bool_decide_unpack _). by vm_compute. Defined.

Lemma createPartitionList_own_uuid_witness :
  NoDup (partitionPath <$> allPartitions (m_devices Sample.jobOnDevice))
  /\ allPartitions (m_devices Sample.jobOnDevice) !! 0%nat = Some Sample.esp
  /\ toList (@createPartitionList Sample.platform Sample.jobOnDevice) !! 0%nat
     = Some (@mapForPartition Sample.platform Sample.esp "0a1b-2c3d").
Proof.
  split; [exact sample_paths_distinct|]. split; [reflexivity|].
  exact (@createPartitionList_own_uuid Sample.platform Sample.jobOnDevice 0 Sample.esp
           sample_paths_distinct eq_refl).
Defined.

Lemma createPartitionList_shared_uuid_witness :
  allPartitions (m_devices Sample.jobNewDisk) !! 0%nat = Some Sample.newroot
  /\ @uuidRead Sample.platformByType Sample.newroot = "uuid-ext4"
  /\ toList (@createPartitionList Sample.platformByType Sample.jobNewDisk) !! 0%nat
     = Some (@mapForPartition Sample.platformByType Sample.newroot "uuid-linuxswap").
Proof.
  split; [reflexivity|]. split; [reflexivity|].
  destruct (@createPartitionList_shared_uuid Sample.platformByType Sample.jobNewDisk
              0 Sample.newroot eq_refl) as (q & Hlast & _ & Hrecord & _).
  rewrite Hrecord. f_equal. f_equal.
  assert (Hq : q = Sample.newswap) by (apply (inj Some); rewrite <- Hlast; reflexivity).
  by rewrite Hq.
Defined.

Lemma record_own_names_witness :
  fileSystemType (fileSystem Sample.cryptdata) <> Luks
  /\ record Sample.cryptdata "" !! "fsName" = Some (VString "luks2")
  /\ record Sample.cryptdata "" !! "fs" = Some (VString "luks2").
Proof.
  split; [discriminate|].
  pose proof (@record_own_names Sample.platform Sample.cryptdata "") as (Hname & Hfs).
  split; [exact Hname|]. apply Hfs. left. discriminate.
Defined.

Lemma record_mapper_name_witness :
  PartitionRole.has (roles Sample.cryptroot) PartitionRole.Luks = true
  /\ record Sample.cryptroot "" !! "luksMapperName" = Some (VString "luks-6c3e1d0a")
  /\ hasChar "/" "luks-6c3e1d0a" = false.
Proof.
  split; [reflexivity|].
  destruct (@record_mapper_name Sample.platform Sample.cryptroot "" _ eq_refl eq_refl)
    as (name & pre & Hname & Hno & _).
  assert (Hn : name = "luks-6c3e1d0a").
  { assert (Hv : VString name = VString "luks-6c3e1d0a")
      by (apply (inj Some); rewrite <- Hname; by vm_compute).
    by injection Hv. }
  split; [by rewrite <- Hn | by rewrite <- Hn].
Defined.

Lemma luks_type_without_role_witness :
  PartitionRole.has (roles Sample.cryptnorole) PartitionRole.Luks = false
  /\ fileSystemType (fileSystem Sample.cryptnorole) = Luks
  /\ record Sample.cryptnorole "" !! "fs" = Some (VString "ext4")
  /\ dom (record Sample.cryptnorole "") = partitionKeys
  /\ record Sample.cryptnorole "" !! "luksPassphrase" = None.
Proof.
  split; [reflexivity|]. split; [reflexivity|].
  pose proof (@luks_type_without_role Sample.platform Sample.cryptnorole ""
                (PlainFS Ext4) eq_refl eq_refl eq_refl)
    as (Hfs & Hdom & _ & _ & Hpass).
  split; [exact Hfs|]. split; [exact Hdom | exact Hpass].
Defined.

Lemma getLuksUuid_empty_iff_witness :
  @getLuksUuid Sample.platform "/dev/sdz9" = ""
  /\ @getLuksUuid Sample.platform "/dev/sda2" <> "".
Proof.
  split.
  - apply (@getLuksUuid_empty_iff Sample.platform "/dev/sdz9"). right. right. reflexivity.
  - intros Hempty.
    apply (@getLuksUuid_empty_iff Sample.platform "/dev/sda2") in Hempty
      as [Hstatus|[Hcode|Hspace]]; [by apply Hstatus | by apply Hcode | discriminate Hspace].
Defined.

Lemma description_line_of_partition_witness :
  state Sample.cryptroot = StateNew
  /\ partitionPath Sample.cryptroot <> ""
  /\ record Sample.cryptroot "" !! "new" = Some (VBool true)
  /\ @descriptionLine Sample.platform (@mapForPartition Sample.platform Sample.cryptroot "")
     = Some "Install Calamares on ext4 system partition <strong>/dev/sda2</strong>.".
Proof.
  split; [reflexivity|]. split; [discriminate|].
  pose proof (@description_line_of_partition Sample.platform Sample.cryptroot "")
    as (Hline & _ & Hnew).
  destruct Hnew as (Hflag & _); [reflexivity | reflexivity | discriminate |].
  split; [exact Hflag|]. rewrite Hline. reflexivity.
Defined.

Lemma description_line_count_witness :
  length (@descriptionLines Sample.platform Sample.jobUnresolved) = 4%nat
  /\ @prettyDescription Sample.platform Sample.jobNothingShown = ""
  /\ @prettyDescription Sample.platform Sample.jobNoBootLoader
     = "Set up fat32 partition <strong>/dev/sda1</strong> with mount point <strong>/boot/efi</strong>.<br/>Install Calamares on ext4 system partition <strong>/dev/sda2</strong>.<br/>Set up <strong>new</strong> btrfs partition with mount point <strong>/home</strong>.".
Proof.
  split; [|split].
  - by rewrite (proj1 (proj2 (@description_line_count Sample.platform Sample.jobUnresolved))).
  - by apply (@description_line_count Sample.platform Sample.jobNothingShown).
  - pose proof (@description_line_count Sample.platform Sample.jobNoBootLoader)
      as (_ & _ & _ & _ & Htext & _).
    rewrite Htext. reflexivity.
Defined.

Lemma exec_last_writer_wins_witness :
  (@exec Sample.platform Sample.jobOther
     (@exec Sample.platform Sample.jobOnDevice Sample.usedStorage).2).2
  = (@exec Sample.platform Sample.jobOther Sample.usedStorage).2.
Proof.
  apply (@exec_last_writer_wins Sample.platform).
Defined.

Lemma stored_bootLoader_valid_iff_witness :
  value (@exec Sample.platform Sample.jobOnNewHome ∅).2 "bootLoader"
  = VMap {[ "installPath" := VString "" ]}
  /\ isValid (value (@exec Sample.platform Sample.jobUnresolved ∅).2 "bootLoader") = false.
Proof.
  split.
  - destruct (proj2 (@stored_bootLoader_valid_iff Sample.platform Sample.jobOnNewHome ∅))
      as (installPath & Hvar & _ & _ & Hfound); [reflexivity|].
    destruct (Hfound eq_refl) as (partition & Hpartition & Hpath).
    rewrite Hvar, Hpath. do 3 f_equal.
    assert (Hp : partition = Sample.newhome)
      by (apply (inj Some); rewrite <- Hpartition; reflexivity).
    by rewrite Hp.
  - apply not_true_is_false. intros Hvalid.
    apply (@stored_bootLoader_valid_iff Sample.platform Sample.jobUnresolved ∅) in Hvalid
      as [_ [Hdev|[p Hp]]]; discriminate.
Defined.

Lemma partition_list_order_witness :
  (fun item => toString (value (toMap item) "device"))
    <$> toList (@createPartitionList Sample.platform Sample.jobOnDevice)
  = ["/dev/sda1"; "/dev/sda2"; ""; "/dev/sdb1"].
Proof.
  by rewrite (proj1 (proj2 (proj2 (@partition_list_order Sample.platform Sample.jobOnDevice)))).
Defined.

End MoreRuns.
